(** * quest_solution.py: remote-to-S3 reconciliation

    A shallow embedding of the data-sourcing half of [quest_solution.py]:
    the S3 listing ([get_s3_objects]), the upload loop
    ([upload_files_to_s3]), the batch delete ([remove_files_from_s3]),
    the index page ([generate_index_html]) and the catalog preparation of
    [sync_bucket].  Python strings are [string]; a [dict] is an
    association list in insertion order with unique keys; [set] values are
    [gset string]; calls to [requests], [boto3] and the file system are
    recorded in a trace carried by a state-and-exception monad. *)

From stdpp Require Import base list strings gmap sets pretty.
From Stdlib Require Import Ascii.

(** ** Exceptions and results *)

Inductive exn : Type :=
  | ValueError (msg : string)
  | IndexError
  | HTTPError (url : string)
  | S3UploadFailedError (key : string).

Inductive result (A : Type) : Type :=
  | Ok (a : A)
  | Err (e : exn).
Arguments Ok {A} a.
Arguments Err {A} e.

Global Instance result_ret : MRet result := λ A a, Ok a.
Global Instance result_bind : MBind result := λ A B f r,
  match r with
  | Ok a => f a
  | Err e => Err e
  end.

(** ** Python string and list primitives *)

Module PyStr.

(** [s.startswith(p)]. *)
Definition startswith (s p : string) : bool := String.prefix p s.

(** [s.endswith(p)]: some tail of [s] is [p]. *)
Fixpoint endswith (s p : string) : bool :=
  if String.eqb s p then true
  else match s with
       | EmptyString => false
       | String _ s' => endswith s' p
       end.

(** Put [c] in front of the first piece. *)
Definition push_char (c : ascii) (pieces : list string) : list string :=
  match pieces with
  | [] => [String c EmptyString]
  | p :: ps => String c p :: ps
  end.

(** The scan of [s.split(sep)] for a non-empty [sep]: left to right,
    cutting at every occurrence of [sep] that does not overlap the
    previous one.  [skip] counts the characters of a matched separator
    that are still to be dropped. *)
Fixpoint split_go (sep s : string) (skip : nat) : list string :=
  match s with
  | EmptyString => [EmptyString]
  | String c s' =>
      match skip with
      | S k => split_go sep s' k
      | O =>
          if String.prefix sep s
          then EmptyString :: split_go sep s' (String.length sep - 1)
          else push_char c (split_go sep s' 0)
      end
  end.

(** [s.split(sep)]; an empty separator raises [ValueError]. *)
Definition split (s sep : string) : result (list string) :=
  match sep with
  | EmptyString => Err (ValueError "empty separator")
  | _ => Ok (split_go sep s 0)
  end.

(** [l[i]] for [i >= 0]. *)
Definition index {A} (l : list A) (i : nat) : result A :=
  match l !! i with
  | Some x => Ok x
  | None => Err IndexError
  end.

(** [l[-1]]. *)
Definition index_last {A} (l : list A) : result A :=
  match last l with
  | Some x => Ok x
  | None => Err IndexError
  end.

(** [sep.join(ls)]. *)
Definition join (sep : string) (ls : list string) : string :=
  String.concat sep ls.

(** [sep] occurs somewhere in [s]. *)
Fixpoint occurs (sep s : string) : bool :=
  if String.prefix sep s then true
  else match s with
       | EmptyString => false
       | String _ s' => occurs sep s'
       end.

End PyStr.

(** ** Configuration (module-level constants of the script) *)

Definition S3_BUCKET_NAME : string := "rearc-quest-data-bhagath".
Definition AWS_REGION : string := "ap-south-1".
Definition DATA_DIR : string := "data".
Definition DATASET2_JSON_FILE : string := "usa_population.json".

(** ** Dictionaries

    [files_info] is a Python [dict] from file name to URL or [None]:
    an association list in insertion order whose keys are unique. *)

Definition dict : Type := list (string * option string).

Definition dict_keys (d : dict) : list string := d.*1.

Fixpoint dict_get (d : dict) (k : string) : option (option string) :=
  match d with
  | [] => None
  | (k', v) :: d' => if decide (k' = k) then Some v else dict_get d' k
  end.

(** [d[k] = v]: overwrite in place, or append a new key. *)
Fixpoint dict_set (d : dict) (k : string) (v : option string) : dict :=
  match d with
  | [] => [(k, v)]
  | (k', v') :: d' =>
      if decide (k' = k) then (k', v) :: d' else (k', v') :: dict_set d' k v
  end.

Definition dict_wf (d : dict) : Prop := NoDup (dict_keys d).

(** ** The store listing

    One response of [list_objects_v2]: the ['Contents'] entry is absent
    when no key matches.  Only the ['Key'] of each item is used.  The
    paginator yields the responses of successive calls; a single
    [list_objects_v2] call returns the first of them. *)

Record page : Type := Page { Contents : option (list string) }.

Definition listing : Type := list page.

Definition list_objects_v2 (l : listing) : page :=
  match l with
  | [] => Page None
  | p :: _ => p
  end.

Definition paginate (l : listing) : list page := l.

(** The keys of all pages, and those that are not folder markers. *)
Definition page_keys (p : page) : list string := default [] (Contents p).
Definition all_keys (l : listing) : list string := concat (page_keys <$> l).
Definition is_marker (key : string) : bool := PyStr.endswith key "/".
Definition non_marker_keys (l : listing) : list string :=
  filter (λ key, is_marker key = false) (all_keys l).

(** ** get_s3_objects *)

(** Lines 78-79: the name kept for a key. *)
Definition key_name (s3_prefix key : string) : result string :=
  if PyStr.startswith key s3_prefix
  then parts ← PyStr.split key s3_prefix; PyStr.index parts 1
  else Ok key.

(** Lines 75-80: the inner loop over one page; [objects] is the list
    being appended to. *)
Fixpoint get_s3_objects_items (s3_prefix : string) (items objects : list string)
  : result (list string) :=
  match items with
  | [] => Ok objects
  | key :: items' =>
      if PyStr.endswith key "/" then get_s3_objects_items s3_prefix items' objects
      else key' ← key_name s3_prefix key;
           get_s3_objects_items s3_prefix items' (objects ++ [key'])
  end.

(** Lines 73-80: the loop over the pages. *)
Fixpoint get_s3_objects_pages (s3_prefix : string) (pages : list page)
    (objects : list string) : result (list string) :=
  match pages with
  | [] => Ok objects
  | p :: pages' =>
      match Contents p with
      | Some items =>
          objects' ← get_s3_objects_items s3_prefix items objects;
          get_s3_objects_pages s3_prefix pages' objects'
      | None => get_s3_objects_pages s3_prefix pages' objects
      end
  end.

Definition get_s3_objects (store : listing) (s3_prefix : string) : result (list string) :=
  get_s3_objects_pages s3_prefix (paginate store) [].

(** ** The outside world

    Every call that leaves the process is recorded, in order. *)

Inductive event : Type :=
  | HttpGet (filename url : string)
      (* requests.get(url), issued while [filename] is processed *)
  | S3UploadFileobj (key : string)
  | S3UploadFile (path key : string)
  | S3DeleteObjects (keys deleted : list string)
      (* the request, and the keys the server reports under 'Deleted' *)
  | S3PutObject (key body content_type : string)
  | FileWrite (path : string)
  | Print (line : string).

Record world : Type := World {
  trace : list event;
  local_files : list string
}.

Definition emit (e : event) (w : world) : world :=
  World (trace w ++ [e]) (local_files w).

(** What the network and the store answer. *)
Record env : Type := Env {
  http_ok : string → bool;    (* the GET of this URL has a success status *)
  upload_ok : string → bool;  (* the upload to this key succeeds *)
  delete_ok : string → bool   (* the store deletes this key of a batch *)
}.

(** State and exceptions: an exception keeps the effects done so far. *)
Definition M (A : Type) : Type := world → result A * world.

Global Instance M_ret : MRet M := λ A a w, (Ok a, w).
Global Instance M_bind : MBind M := λ A B f m w,
  match m w with
  | (Ok a, w') => f a w'
  | (Err e, w') => (Err e, w')
  end.

Definition raise {A} (e : exn) : M A := λ w, (Err e, w).
Definition perform (e : event) : M unit := λ w, (Ok (), emit e w).
Definition print (line : string) : M unit := perform (Print line).

(** [for x in l: body(x)]. *)
Fixpoint for_each {A} (body : A → M unit) (l : list A) : M unit :=
  match l with
  | [] => mret ()
  | x :: l' => body x;; for_each body l'
  end.

(** [os.path.join(a, b)] on POSIX. *)
Definition os_path_join (a b : string) : string :=
  if PyStr.startswith b "/" then b
  else if bool_decide (a = EmptyString) || PyStr.endswith a "/" then a +:+ b
  else a +:+ "/" +:+ b.

Definition os_path_exists (path : string) : M bool :=
  λ w, (Ok (bool_decide (path ∈ local_files w)), w).

(** [with open(path, "wb") as f: ... f.write(chunk)]. *)
Definition write_file (path : string) : M unit :=
  λ w, (Ok (), World (trace w ++ [FileWrite path]) (path :: local_files w)).

Section Transfer.

Context (net : env).

(** A [requests] response: its URL and whether the status is a success. *)
Record response : Type := Response { resp_url : string; resp_ok : bool }.

Definition requests_get (filename url : string) : M response :=
  perform (HttpGet filename url);; mret (Response url (http_ok net url)).

Definition raise_for_status (r : response) : M unit :=
  if resp_ok r then mret () else raise (HTTPError (resp_url r)).

Definition s3_upload_fileobj (key : string) : M unit :=
  if upload_ok net key then perform (S3UploadFileobj key)
  else raise (S3UploadFailedError key).

Definition s3_upload_file (path key : string) : M unit :=
  if upload_ok net key then perform (S3UploadFile path key)
  else raise (S3UploadFailedError key).

Definition s3_delete_objects (keys : list string) : M unit :=
  perform (S3DeleteObjects keys (filter (λ k, delete_ok net k = true) keys)).

Definition s3_put_object (key body content_type : string) : M unit :=
  perform (S3PutObject key body content_type).

(** *** upload_files_to_s3 *)

Definition files_to_download : list string := ["pr.data.0.Current"].
Definition download_dir : string := os_path_join DATA_DIR "dataset1".

(** Lines 96-114: the body of the loop for one [(filename, file_url)]. *)
Definition upload_item (existing_s3_files : list string) (s3_prefix : string)
    (item : string * option string) : M unit :=
  let '(filename, file_url) := item in
  match file_url with
  | None => mret ()                                            (* continue *)
  | Some file_url =>
      file_resp ←
        (if bool_decide (filename ∉ existing_s3_files) then
           r ← requests_get filename file_url;
           raise_for_status r;;
           print ("Uploading " +:+ filename +:+ " to S3...");;
           s3_upload_fileobj (s3_prefix +:+ filename);;
           mret (Some r)
         else
           print ("Skipping " +:+ filename +:+ ", already in S3.");;
           mret None);
      let filepath := os_path_join download_dir filename in
      present ← os_path_exists filepath;
      if bool_decide (filename ∈ files_to_download) && negb present then
        print ("Downloading " +:+ filename +:+ " to local directory...");;
        _ ← match file_resp with
            | None =>
                r ← requests_get filename file_url;
                raise_for_status r;;
                mret r
            | Some r => mret r
            end;
        write_file filepath
      else mret ()
  end.

Definition upload_files_to_s3 (files_info : dict)
    (existing_s3_files : list string) (s3_prefix : string) : M unit :=
  for_each (upload_item existing_s3_files s3_prefix) files_info.

(** *** remove_files_from_s3 *)

(** Line 120. *)
Definition files_to_delete (files_info : dict) (existing_s3_files : list string)
  : gset string :=
  list_to_set existing_s3_files ∖ list_to_set (dict_keys files_info).

Definition remove_files_from_s3 (files_info : dict)
    (existing_s3_files : list string) (s3_prefix : string) : M unit :=
  let to_delete := elements (files_to_delete files_info existing_s3_files) in
  match to_delete with
  | _ :: _ =>
      print "Deleting obsolete files from S3...";;
      let delete_objects := (λ f, s3_prefix +:+ f) <$> to_delete in
      s3_delete_objects delete_objects;;
      print ("Deleted " +:+ pretty (length delete_objects) +:+ " files.")
  | [] => print "No files to delete."
  end.

End Transfer.

Section Publish.

Context (net : env).

Definition lift {A} (r : result A) : M A := λ w, (r, w).

(** The double quote and the newline of the f-strings. *)
Definition dq : string := String (ascii_of_nat 34) EmptyString.
Definition nl : string := String (ascii_of_nat 10) EmptyString.

(** Line 153. *)
Definition object_url (key : string) : string :=
  "https://" +:+ S3_BUCKET_NAME +:+ ".s3." +:+ AWS_REGION +:+ ".amazonaws.com/" +:+ key.

(** Line 154. *)
Definition list_item (file_url filename : string) : string :=
  "<li><a href=" +:+ dq +:+ file_url +:+ dq +:+ ">" +:+ filename +:+ "</a></li>".

(** Lines 148-154: the loop that appends one line per key. *)
Fixpoint index_lines (contents html_lines : list string) : result (list string) :=
  match contents with
  | [] => Ok html_lines
  | key :: contents' =>
      if PyStr.endswith key "/" then index_lines contents' html_lines
      else
        parts ← PyStr.split key "/";
        filename ← PyStr.index_last parts;
        let file_url := object_url key in
        index_lines contents' (html_lines ++ [list_item file_url filename])
  end.

Definition index_header (prefix : string) : list string :=
  [ "<!DOCTYPE html>";
    "<html><head><title>Dataset Files</title></head><body>";
    "<h2>Files in " +:+ prefix +:+ "</h2>";
    "<ul>" ].

Definition generate_index_html (store : listing) (prefix : string) : M unit :=
  let response := list_objects_v2 store in
  match Contents response with
  | None => print "No files found in S3 folder."               (* return *)
  | Some contents =>
      html_lines ← lift (index_lines contents (index_header prefix));
      let html_lines := html_lines ++ ["</ul></body></html>"] in
      let html_content := PyStr.join nl html_lines in
      let index_key := prefix +:+ "index.html" in
      s3_put_object index_key html_content "text/html";;
      print ("index.html uploaded to s3://" +:+ S3_BUCKET_NAME +:+ "/" +:+ index_key);;
      print ("Access it via: " +:+ object_url index_key)
  end.

(** *** sync_bucket

    Lines 177-191: the run from the listing of the store on.
    [remote_files] is what [get_dataset1_info] returned, [store] what
    the bucket lists when the run starts and [store_after] what it
    lists when the index is generated.  The call of line 176 that
    produces [remote_files] is put in front by [sync_bucket_from_remote]. *)

Definition DATASET2_URL : string :=
  "https://honolulu-api.datausa.io/tesseract/data.jsonrecords?cube=acs_yg_total_population_1&drilldowns=Year%2CNation&locale=en&measures=Population".

(** Lines 178-179. *)
Definition protect (remote_files : dict) : dict :=
  dict_set (dict_set remote_files "index.html" None) DATASET2_JSON_FILE None.

Definition dataset2_path : string :=
  os_path_join (os_path_join DATA_DIR "dataset2") DATASET2_JSON_FILE.

Definition get_dataset2_json : M unit :=
  r ← requests_get net DATASET2_JSON_FILE DATASET2_URL;
  raise_for_status r;;
  write_file dataset2_path;;
  print ("Dataset 2 JSON saved to " +:+ DATASET2_JSON_FILE).

Definition sync_bucket (remote_files : dict) (store store_after : listing)
    (s3_prefix : string) : M unit :=
  s3_files ← lift (get_s3_objects store s3_prefix);
  let remote_files := protect remote_files in
  upload_files_to_s3 net remote_files s3_files s3_prefix;;
  remove_files_from_s3 net remote_files s3_files s3_prefix;;
  print "Uploading Dataset 2 JSON to S3...";;
  get_dataset2_json;;
  s3_upload_file net dataset2_path (s3_prefix +:+ DATASET2_JSON_FILE);;
  print ("Uploaded " +:+ DATASET2_JSON_FILE +:+ " to S3 bucket " +:+ S3_BUCKET_NAME);;
  print "S3 Sync complete.";;
  generate_index_html store_after s3_prefix.

End Publish.

(** ** Observations on a trace *)

(** The keys written by the upload loop. *)
Definition uploaded_keys (t : list event) : list string :=
  omap (λ e, match e with S3UploadFileobj key => Some key | _ => None end) t.

(** The file names for which a GET was issued. *)
Definition fetched_names (t : list event) : list string :=
  omap (λ e, match e with HttpGet filename _ => Some filename | _ => None end) t.

(** The documents put into the store, as [(key, body)]. *)
Definition put_objects (t : list event) : list (string * string) :=
  omap (λ e, match e with S3PutObject key body _ => Some (key, body) | _ => None end) t.

(** The lines printed. *)
Definition printed (t : list event) : list string :=
  omap (λ e, match e with Print line => Some line | _ => None end) t.

(** The batch deletes: [(requested, deleted)]. *)
Definition delete_batches (t : list event) : list (list string * list string) :=
  omap (λ e, match e with S3DeleteObjects ks ds => Some (ks, ds) | _ => None end) t.

Definition w0 : world := World [] [].
Definition all_ok : env := Env (λ _, true) (λ _, true) (λ _, true).

(** Run a computation from an empty trace and an empty local directory. *)
Definition run {A} (m : M A) : result A * list event :=
  let '(r, w) := m w0 in (r, trace w).

(** A computation that only adds events satisfying [P] to the trace,
    whether it returns or raises. *)
Definition adds (P : event → Prop) {A} (m : M A) : Prop :=
  ∀ w, ∃ evs, trace (m w).2 = trace w ++ evs ∧ Forall P evs.

(** The event is not a batch delete that names [key]. *)
Definition spares (key : string) (e : event) : Prop :=
  ∀ keys deleted, e = S3DeleteObjects keys deleted → key ∉ keys.

(** ** The plan

    The names the upload loop can fetch at all: those with a URL. *)
Definition fetchable (d : dict) : list string :=
  omap (λ it, match it.2 with Some _ => Some it.1 | None => None end) d.

(** The keys requested in batch deletes. *)
Definition delete_requests (t : list event) : list string :=
  concat (fst <$> delete_batches t).

(** The line printed after a batch delete that reports [n] files. *)
Definition deleted_message (n : nat) : string :=
  "Deleted " +:+ pretty n +:+ " files.".

(** The last component of a key, and the list item of the index for it. *)
Definition basename (key : string) : string :=
  default EmptyString (last (PyStr.split_go "/" key 0)).

Definition index_entry (key : string) : string :=
  list_item (object_url key) (basename key).

Definition index_footer : string := "</ul></body></html>".

(** ** The claims of the specification that the code does not meet,
    written down as stated *)

(** The upload loop transfers exactly the names of [keys(R) − S]. *)
Definition diff_as_stated (R : dict) (S : list string) (p : string) : Prop :=
  ∃ w1 to_upload,
    upload_files_to_s3 all_ok R S p w0 = (Ok (), w1)
    ∧ uploaded_keys (trace w1) = (λ n, p +:+ n) <$> to_upload
    ∧ list_to_set to_upload =@{gset string}
      list_to_set (dict_keys R) ∖ list_to_set S.

(** Every item of the upload plan is attempted, whatever fails. *)
Definition isolation_as_stated (net : env) (R : dict) (S : list string)
    (p : string) : Prop :=
  ∀ name url, (name, Some url) ∈ R → (name ∉ S) →
    name ∈ fetched_names (trace (upload_files_to_s3 net R S p w0).2).

(** The count printed after a batch delete is the number of keys the
    store deleted. *)
Definition deleted_count_as_stated (net : env) (R : dict) (S : list string)
    (p : string) : Prop :=
  ∀ keys deleted,
    (keys, deleted) ∈ delete_batches (trace (remove_files_from_s3 net R S p w0).2) →
    deleted_message (length deleted)
    ∈ printed (trace (remove_files_from_s3 net R S p w0).2).

(** ** Sample data *)

Definition catalog_ab : dict :=
  [ ("a.txt", Some "https://remote/a.txt");
    ("b.txt", Some "https://remote/b.txt") ].

(** The scenario of the specification: one protected entry, one file in
    sync, one to upload, one to delete. *)
Definition catalog_scenario : dict :=
  [ ("a.txt", Some "https://remote/a.txt");
    ("b.txt", Some "https://remote/b.txt");
    ("index.html", None) ].

(** A network on which the GET of [bad] fails. *)
Definition net_failing_get (bad : string) : env :=
  Env (λ u, bool_decide (u ≠ bad)) (λ _, true) (λ _, true).

(** A store that refuses to delete [bad]. *)
Definition net_failing_delete (bad : string) : env :=
  Env (λ _, true) (λ _, true) (λ k, bool_decide (k ≠ bad)).

(** Three files, the GET of the second of which fails; the world after
    the first was uploaded, and after the failed GET. *)
Definition catalog_abc_pre : dict := [("a.txt", Some "https://remote/a.txt")].
Definition catalog_abc_post : dict := [("c.txt", Some "https://remote/c.txt")].
Definition net_b_fails : env := net_failing_get "https://remote/b.txt".
Definition world_a_uploaded : world :=
  World [ HttpGet "a.txt" "https://remote/a.txt";
          Print "Uploading a.txt to S3...";
          S3UploadFileobj "dataset/a.txt" ] [].
Definition world_b_failed : world :=
  emit (HttpGet "b.txt" "https://remote/b.txt") world_a_uploaded.

Definition store_3x2 : listing :=
  [ Page (Some ["dataset/a.txt"; "dataset/b.txt"]);
    Page (Some ["dataset/c.txt"; "dataset/d.txt"]);
    Page (Some ["dataset/e.txt"; "dataset/f.txt"]) ].

(** ** create_s3_bucket

    The calls the function makes, given the names that [list_buckets]
    returns. *)

Inductive bucket_event : Type :=
  | BucketPrint (line : string)
  | S3CreateBucket (bucket location_constraint : string).

(** [bool(s)] for a string: false exactly for the empty string. *)
Definition truthy (s : string) : bool :=
  match s with
  | EmptyString => false
  | String _ _ => true
  end.

(** [any(l)] for a list of strings. *)
Definition py_any (l : list string) : bool := existsb truthy l.

(** Lines 28-34. *)
Definition create_s3_bucket (buckets : list string) (bucket_name : string)
  : list bucket_event :=
  let bucket_exists :=
    py_any (filter (λ name, name = bucket_name) buckets) in
  if bucket_exists
  then [BucketPrint ("Bucket " +:+ bucket_name +:+ " already exists")]
  else [ BucketPrint ("Creating bucket " +:+ bucket_name);
         S3CreateBucket bucket_name AWS_REGION ].

(** ** get_dataset1_info

    [hrefs] is [a.get('href')] for every anchor that [soup.find_all('a')]
    returns, in document order; [urljoin] is the function of
    [urllib.parse], taken as it is. *)

Definition DATASET1_URL : string := "https://download.bls.gov/pub/time.series/pr".

Section Dataset1.

Context (urljoin : string → string → string).

(** Lines 45-49: the loop over the anchors; [files_dict] is the dict
    being filled. *)
Fixpoint dataset1_links (hrefs : list (option string)) (files_dict : dict)
  : result dict :=
  match hrefs with
  | [] => Ok files_dict
  | href :: hrefs' =>
      match href with
      | Some href =>
          if truthy href && negb (PyStr.endswith href "/") then
            parts ← PyStr.split href "/";
            filename ← PyStr.index_last parts;
            dataset1_links hrefs'
              (dict_set files_dict filename (Some (urljoin DATASET1_URL href)))
          else dataset1_links hrefs' files_dict
      | None => dataset1_links hrefs' files_dict
      end
  end.

(** The GET of the listing is not made for any file: its tag is empty. *)
Definition get_dataset1_info (net : env) (hrefs : list (option string)) : M dict :=
  r ← requests_get net EmptyString DATASET1_URL;
  raise_for_status r;;
  lift (dataset1_links hrefs []).

End Dataset1.

(** A link is kept when it is not empty and does not end in a slash. *)
Definition kept_link (href : string) : bool :=
  truthy href && negb (PyStr.endswith href "/").

(** The last kept link of the page whose file name is [name]: what a
    reader of the page expects the dict to hold for [name]. *)
Fixpoint last_link (hrefs : list (option string)) (name : string) : option string :=
  match hrefs with
  | [] => None
  | href :: hrefs' =>
      match last_link hrefs' name with
      | Some h => Some h
      | None =>
          match href with
          | Some h =>
              if kept_link h && bool_decide (basename h = name) then Some h else None
          | None => None
          end
      end
  end.

(** Lines 176-191, with the listing of the remote files fetched first. *)
Definition sync_bucket_from_remote (urljoin : string → string → string)
    (net : env) (hrefs : list (option string)) (store store_after : listing)
    (s3_prefix : string) : M unit :=
  remote_files ← get_dataset1_info urljoin net hrefs;
  sync_bucket net remote_files store store_after s3_prefix.

(** ** What the transfer functions are allowed to do *)

(** The events of the upload loop over [R] with the store names [S]: a
    GET of the URL the catalog gives for a name, an upload under the
    prefix of a name with a URL that is not in the store, a write of the
    one local copy, a printed line. *)
Definition upload_event (R : dict) (S : list string) (p : string) (e : event)
  : Prop :=
  match e with
  | HttpGet name url => (name, Some url) ∈ R
  | S3UploadFileobj key =>
      ∃ name url, key = p +:+ name ∧ (name, Some url) ∈ R ∧ (name ∉ S)
  | FileWrite path => path = "data/dataset1/pr.data.0.Current"
  | Print _ => True
  | _ => False
  end.

(** The events of the index generation: the put of the index page under
    the prefix, a printed line. *)
Definition publish_event (prefix : string) (e : event) : Prop :=
  match e with
  | S3PutObject key _ content_type =>
      key = prefix +:+ "index.html" ∧ content_type = "text/html"
  | Print _ => True
  | _ => False
  end.

(** The local files written. *)
Definition file_writes (t : list event) : list string :=
  omap (λ e, match e with FileWrite path => Some path | _ => None end) t.

(** The path of the one local copy the upload loop keeps. *)
Definition local_copy : string := os_path_join download_dir "pr.data.0.Current".

(** ** More sample data *)

Definition urljoin_concat (base href : string) : string := base +:+ "/" +:+ href.

Definition hrefs_sample : list (option string) :=
  [ Some "/pub/time.series/"; None; Some EmptyString;
    Some "/pub/time.series/pr/pr.data.0.Current";
    Some "pr.txt"; Some "other/pr.txt" ].

(** ** The bytes of a transfer

    A second reading of lines 94-114 of [upload_files_to_s3] that follows
    the bytes.  The response of [requests.get(..., stream=True)] carries
    a raw stream, an object shared by everything that holds the response:
    [s3.upload_fileobj(file_resp.raw, ...)] reads it to its end, and
    [file_resp.iter_content] reads what is left of it.  [streams] holds
    the unread bytes of the raw stream of every response, by number. *)

Inductive io : Type :=
  | IoGet (filename url : string)
  | IoUpload (key data : string)
  | IoWrite (path data : string)
  | IoPrint (line : string).

Record bworld : Type := BWorld {
  io_trace : list io;
  disk : list (string * string);   (* local files: path and content *)
  streams : list string
}.

Definition MB (A : Type) : Type := bworld → result A * bworld.

Global Instance MB_ret : MRet MB := λ A a w, (Ok a, w).
Global Instance MB_bind : MBind MB := λ A B f m w,
  match m w with
  | (Ok a, w') => f a w'
  | (Err e, w') => (Err e, w')
  end.

Definition b_raise {A} (e : exn) : MB A := λ w, (Err e, w).

Definition b_perform (e : io) : MB unit :=
  λ w, (Ok (), BWorld (io_trace w ++ [e]) (disk w) (streams w)).

Definition b_print (line : string) : MB unit := b_perform (IoPrint line).

Fixpoint b_for_each {A} (body : A → MB unit) (l : list A) : MB unit :=
  match l with
  | [] => mret ()
  | x :: l' => body x;; b_for_each body l'
  end.

(** A response: its URL, its status and the number of its raw stream. *)
Record bresponse : Type :=
  BResponse { bresp_url : string; bresp_ok : bool; bresp_raw : nat }.

(** Read a raw stream to its end: what was unread is returned, nothing
    is left. *)
Definition read_to_end (raw : nat) : MB string :=
  λ w, (Ok (default EmptyString (streams w !! raw)),
        BWorld (io_trace w) (disk w) (<[raw := EmptyString]> (streams w))).

Definition b_path_exists (path : string) : MB bool :=
  λ w, (Ok (bool_decide (path ∈ (disk w).*1)), w).

(** [f.write(...)] of all the bytes, on a file opened with ["wb"]. *)
Definition b_store_file (path data : string) : MB unit :=
  λ w, (Ok (), BWorld (io_trace w ++ [IoWrite path data])
                      ((path, data) :: disk w) (streams w)).

Section Bytes.

Context (net : env).

(** The body that the server sends for a URL. *)
Context (content : string → string).

Definition b_requests_get (filename url : string) : MB bresponse :=
  λ w, (Ok (BResponse url (http_ok net url) (length (streams w))),
        BWorld (io_trace w ++ [IoGet filename url]) (disk w)
               (streams w ++ [content url])).

Definition b_raise_for_status (r : bresponse) : MB unit :=
  if bresp_ok r then mret () else b_raise (HTTPError (bresp_url r)).

(** Line 102: the stream is read to its end and its bytes are stored. *)
Definition b_upload_fileobj (raw : nat) (key : string) : MB unit :=
  data ← read_to_end raw;
  if upload_ok net key then b_perform (IoUpload key data)
  else b_raise (S3UploadFailedError key).

(** Lines 112-114: the chunks of [iter_content] are what is left of the
    raw stream. *)
Definition b_write_chunks (path : string) (r : bresponse) : MB unit :=
  data ← read_to_end (bresp_raw r);
  b_store_file path data.

(** Lines 96-114. *)
Definition upload_item_bytes (existing_s3_files : list string) (s3_prefix : string)
    (item : string * option string) : MB unit :=
  let '(filename, file_url) := item in
  match file_url with
  | None => mret ()
  | Some file_url =>
      file_resp ←
        (if bool_decide (filename ∉ existing_s3_files) then
           r ← b_requests_get filename file_url;
           b_raise_for_status r;;
           b_print ("Uploading " +:+ filename +:+ " to S3...");;
           b_upload_fileobj (bresp_raw r) (s3_prefix +:+ filename);;
           mret (Some r)
         else
           b_print ("Skipping " +:+ filename +:+ ", already in S3.");;
           mret None);
      let filepath := os_path_join download_dir filename in
      present ← b_path_exists filepath;
      if bool_decide (filename ∈ files_to_download) && negb present then
        b_print ("Downloading " +:+ filename +:+ " to local directory...");;
        r ← match file_resp with
            | None =>
                r ← b_requests_get filename file_url;
                b_raise_for_status r;;
                mret r
            | Some r => mret r
            end;
        b_write_chunks filepath r
      else mret ()
  end.

Definition upload_files_bytes (files_info : dict)
    (existing_s3_files : list string) (s3_prefix : string) : MB unit :=
  b_for_each (upload_item_bytes existing_s3_files s3_prefix) files_info.

End Bytes.

(** What the byte-level reading shows of an event, and the two worlds
    that show the same. *)
Definition erase (e : io) : event :=
  match e with
  | IoGet filename url => HttpGet filename url
  | IoUpload key _ => S3UploadFileobj key
  | IoWrite path _ => FileWrite path
  | IoPrint line => Print line
  end.

Definition same_world (w : world) (bw : bworld) : Prop :=
  trace w = erase <$> io_trace bw ∧ local_files w = (disk bw).*1.

Definition bw0 : bworld := BWorld [] [] [].

Definition sample_body (url : string) : string := "series_id year period value".

(** * Properties *)

(** ** Strings *)

Section StringFacts.

Implicit Types (s p sep rest : string) (c : ascii).

Lemma str_app_nil_l s : EmptyString +:+ s = s.
Proof. reflexivity. Qed.

Lemma str_app_cons c s rest : String c s +:+ rest = String c (s +:+ rest).
Proof. reflexivity. Qed.

Lemma str_app_inj_l p s1 s2 : p +:+ s1 = p +:+ s2 → s1 = s2.
Proof.
  induction p as [|c p IH]; [done|].
  rewrite !str_app_cons. intros [= H]. by apply IH.
Qed.

Lemma str_length_app s rest :
  String.length (s +:+ rest) = String.length s + String.length rest.
Proof.
  induction s as [|c s IH]; [done|].
  rewrite str_app_cons. simpl. by rewrite IH.
Qed.

Lemma str_prefix_nil s : String.prefix EmptyString s = true.
Proof. by destruct s. Qed.

Lemma str_prefix_app p rest : String.prefix p (p +:+ rest) = true.
Proof.
  induction p as [|c p IH]; [apply str_prefix_nil|].
  rewrite str_app_cons. simpl. by destruct (ascii_dec c c).
Qed.

Lemma str_prefix_inv p s : String.prefix p s = true → ∃ rest, s = p +:+ rest.
Proof.
  revert s. induction p as [|c p IH]; intros s H.
  - by exists s.
  - destruct s as [|c' s]; [done|]. simpl in H.
    destruct (ascii_dec c c') as [->|]; [|done].
    destruct (IH _ H) as [rest ->]. by exists rest.
Qed.

Lemma split_go_nonempty sep s k : PyStr.split_go sep s k ≠ [].
Proof.
  revert k. induction s as [|c s IH]; intros k; [done|].
  cbn [PyStr.split_go]. destruct k as [|k]; [|apply IH].
  destruct (String.prefix sep (String c s)); [done|].
  specialize (IH 0). by destruct (PyStr.split_go sep s 0).
Qed.

(** Dropping the rest of a matched separator. *)
Lemma split_go_skip sep p rest :
  PyStr.split_go sep (p +:+ rest) (String.length p) = PyStr.split_go sep rest 0.
Proof.
  induction p as [|c p IH]; [reflexivity|].
  rewrite str_app_cons. simpl. apply IH.
Qed.

(** A string that starts with a non-empty separator splits into an
    empty first piece and the pieces of what follows. *)
Lemma split_go_prefix sep rest :
  sep ≠ EmptyString →
  PyStr.split_go sep (sep +:+ rest) 0 = EmptyString :: PyStr.split_go sep rest 0.
Proof.
  intros Hsep. destruct sep as [|c sep]; [done|].
  pose proof (str_prefix_app (String c sep) rest) as Hp.
  rewrite str_app_cons in Hp |- *.
  cbn [PyStr.split_go]. rewrite Hp. f_equal.
  replace (String.length (String c sep) - 1) with (String.length sep)
    by (simpl; lia).
  apply split_go_skip.
Qed.

Lemma split_go_no_occurrence sep s :
  PyStr.occurs sep s = false → PyStr.split_go sep s 0 = [s].
Proof.
  induction s as [|c s IH]; [done|].
  cbn [PyStr.occurs PyStr.split_go].
  destruct (String.prefix sep (String c s)); [done|].
  intros H. by rewrite IH.
Qed.

(** With an occurrence, the first piece is a proper part of the string. *)
Lemma split_go_occurrence sep s :
  sep ≠ EmptyString → PyStr.occurs sep s = true →
  ∃ piece pieces, PyStr.split_go sep s 0 = piece :: pieces
                  ∧ String.length piece < String.length s.
Proof.
  intros Hsep. induction s as [|c s IH].
  - destruct sep; done.
  - cbn [PyStr.occurs PyStr.split_go].
    destruct (String.prefix sep (String c s)).
    + intros _. eexists _, _. split; [done|]. simpl. lia.
    + intros H. destruct (IH H) as (piece & pieces & -> & Hlen).
      eexists _, _. split; [done|]. simpl. lia.
Qed.

End StringFacts.

(** ** The store listing: get_s3_objects *)

Section Listing.

Implicit Types (p key name rest : string) (items objects names : list string).

(** A key under a non-empty prefix: the name is the part of the rest
    that precedes the next occurrence of the prefix. *)
Lemma key_name_under_prefix p rest :
  p ≠ EmptyString →
  key_name p (p +:+ rest) = PyStr.index (PyStr.split_go p rest 0) 0.
Proof.
  intros Hp. unfold key_name, PyStr.startswith.
  rewrite str_prefix_app. unfold PyStr.split.
  destruct p as [|c p]; [done|].
  cbn [mbind result_bind]. by rewrite split_go_prefix.
Qed.

Lemma key_name_ok p key :
  p ≠ EmptyString → ∃ name, key_name p key = Ok name.
Proof.
  intros Hp. destruct (String.prefix p key) eqn:Hpre.
  - destruct (str_prefix_inv _ _ Hpre) as [rest ->].
    rewrite key_name_under_prefix by done.
    pose proof (split_go_nonempty p rest 0) as Hne.
    destruct (PyStr.split_go p rest 0) as [|piece pieces]; [done|].
    by exists piece.
  - exists key. unfold key_name, PyStr.startswith. by rewrite Hpre.
Qed.

(** Without a second occurrence the prefix is stripped. *)
Lemma key_name_strips p rest :
  p ≠ EmptyString → PyStr.occurs p rest = false →
  key_name p (p +:+ rest) = Ok rest.
Proof.
  intros Hp Hocc. rewrite key_name_under_prefix by done.
  by rewrite split_go_no_occurrence.
Qed.

(** With a second occurrence the name is cut short. *)
Lemma key_name_cut p rest :
  p ≠ EmptyString → PyStr.occurs p rest = true →
  key_name p (p +:+ rest) ≠ Ok rest.
Proof.
  intros Hp Hocc. rewrite key_name_under_prefix by done.
  destruct (split_go_occurrence p rest Hp Hocc) as (piece & pieces & -> & Hlen).
  cbn. intros [= ->]. lia.
Qed.

(** An empty prefix makes [split] raise. *)
Lemma key_name_empty_prefix key :
  key_name EmptyString key = Err (ValueError "empty separator").
Proof. unfold key_name, PyStr.startswith. by rewrite str_prefix_nil. Qed.

Lemma get_s3_objects_items_ok p items objects :
  p ≠ EmptyString →
  ∃ names,
    get_s3_objects_items p items objects = Ok (objects ++ names)
    ∧ Forall2 (λ key name, key_name p key = Ok name)
        (filter (λ key, is_marker key = false) items) names.
Proof.
  intros Hp. revert objects.
  induction items as [|key items IH]; intros objects.
  - exists []. by rewrite app_nil_r.
  - cbn [get_s3_objects_items]. fold (is_marker key).
    destruct (is_marker key) eqn:Hm.
    + destruct (IH objects) as (names & -> & HF). exists names.
      split; [done|]. by rewrite filter_cons_False by congruence.
    + destruct (key_name_ok p key Hp) as [name Hname]. rewrite Hname.
      cbn [mbind result_bind].
      destruct (IH (objects ++ [name])) as (names & -> & HF).
      exists (name :: names). split; [by rewrite <- app_assoc|].
      rewrite filter_cons_True by done. by constructor.
Qed.

Lemma get_s3_objects_pages_ok p (pages : list page) objects :
  p ≠ EmptyString →
  ∃ names,
    get_s3_objects_pages p pages objects = Ok (objects ++ names)
    ∧ Forall2 (λ key name, key_name p key = Ok name)
        (non_marker_keys pages) names.
Proof.
  intros Hp. revert objects.
  induction pages as [|[contents] pages IH]; intros objects.
  - exists []. rewrite app_nil_r. split; [done|]. constructor.
  - cbn [get_s3_objects_pages Contents].
    unfold non_marker_keys, all_keys. rewrite fmap_cons, concat_cons, filter_app.
    destruct contents as [items|]; cbn [page_keys Contents default].
    + destruct (get_s3_objects_items_ok p items objects Hp) as (ns1 & -> & HF1).
      cbn [mbind result_bind].
      destruct (IH (objects ++ ns1)) as (ns2 & -> & HF2).
      exists (ns1 ++ ns2). split; [by rewrite app_assoc|].
      by apply Forall2_app.
    + destruct (IH objects) as (ns2 & -> & HF2).
      exists ns2. split; [done|]. by rewrite filter_nil.
Qed.

End Listing.

(** ** The monad and the loop *)

Section Loop.

Context {A : Type} (body : A → M unit).

Lemma for_each_cons x l w :
  for_each body (x :: l) w
  = match body x w with
    | (Ok _, w1) => for_each body l w1
    | (Err e, w1) => (Err e, w1)
    end.
Proof. reflexivity. Qed.

Lemma for_each_app l1 l2 w :
  for_each body (l1 ++ l2) w
  = match for_each body l1 w with
    | (Ok _, w1) => for_each body l2 w1
    | (Err e, w1) => (Err e, w1)
    end.
Proof.
  revert w. induction l1 as [|x l1 IH]; intros w; [done|].
  rewrite <- app_comm_cons, !for_each_cons.
  destruct (body x w) as [[[]|e] w1]; [apply IH|done].
Qed.

(** The loop stops at the first item that raises. *)
Lemma for_each_abort l1 x l2 w w1 w2 e :
  for_each body l1 w = (Ok (), w1) →
  body x w1 = (Err e, w2) →
  for_each body (l1 ++ x :: l2) w = (Err e, w2).
Proof.
  intros H1 H2. by rewrite for_each_app, H1, for_each_cons, H2.
Qed.

End Loop.

Lemma uploaded_keys_app t1 t2 :
  uploaded_keys (t1 ++ t2) = uploaded_keys t1 ++ uploaded_keys t2.
Proof. apply omap_app. Qed.

Lemma fetched_names_app t1 t2 :
  fetched_names (t1 ++ t2) = fetched_names t1 ++ fetched_names t2.
Proof. apply omap_app. Qed.

Lemma delete_batches_app t1 t2 :
  delete_batches (t1 ++ t2) = delete_batches t1 ++ delete_batches t2.
Proof. apply omap_app. Qed.

Lemma delete_requests_app t1 t2 :
  delete_requests (t1 ++ t2) = delete_requests t1 ++ delete_requests t2.
Proof.
  unfold delete_requests. by rewrite delete_batches_app, fmap_app, concat_app.
Qed.

Lemma put_objects_app t1 t2 :
  put_objects (t1 ++ t2) = put_objects t1 ++ put_objects t2.
Proof. apply omap_app. Qed.

Lemma fetchable_cons_Some name url (d : dict) :
  fetchable ((name, Some url) :: d) = name :: fetchable d.
Proof. reflexivity. Qed.

Lemma fetchable_cons_None name (d : dict) :
  fetchable ((name, None) :: d) = fetchable d.
Proof. reflexivity. Qed.

Lemma fetchable_keys name (d : dict) : name ∈ fetchable d → name ∈ dict_keys d.
Proof.
  induction d as [|[k [u|]] d IH].
  - done.
  - rewrite fetchable_cons_Some. cbn. rewrite !elem_of_cons.
    intros [->|H]; [by left|right; by apply IH].
  - rewrite fetchable_cons_None. cbn. rewrite elem_of_cons.
    intros H. right. by apply IH.
Qed.

Ltac run_M :=
  unfold upload_item, requests_get, raise_for_status, s3_upload_fileobj,
    s3_delete_objects, s3_put_object, os_path_exists, write_file, lift,
    print, perform, raise, emit, mbind, M_bind, mret, M_ret;
  cbn beta iota delta [resp_ok resp_url trace local_files snd fst].

Ltac close_events n :=
  match n with
  | 0 => exists []
  | 1 => eexists [_]
  | 2 => eexists [_;_]
  | 3 => eexists [_;_;_]
  | 4 => eexists [_;_;_;_]
  | 5 => eexists [_;_;_;_;_]
  end;
  cbn; rewrite <- ?app_assoc, ?app_nil_r; cbn; (split; [reflexivity|]).

(** ** The upload loop *)

Section Upload.

Context (net : env).
Implicit Types (R : dict) (S : list string) (p name : string) (w : world).

(** What one turn of the loop can do: at most one GET, tagged with the
    file name; at most one upload, of a name that is not in the store;
    a GET for a name that is in the store only for the local copy. *)
Lemma upload_item_events S p filename loc w :
  ∃ evs,
    trace (upload_item net S p (filename, loc) w).2 = trace w ++ evs
    ∧ (fetched_names evs = [] ∨ fetched_names evs = [filename])
    ∧ (uploaded_keys evs = []
       ∨ (uploaded_keys evs = [(p +:+ filename)]
          ∧ (filename ∉ S) ∧ is_Some loc))
    ∧ ((filename ∈ S) → fetched_names evs = [filename] →
       filename ∈ files_to_download)
    ∧ delete_batches evs = [].
Proof.
  destruct loc as [url|]; run_M.
  2: { close_events 0. naive_solver. }
  destruct (decide (filename ∈ S)) as [HS|HS].
  - rewrite (bool_decide_false (filename ∉ S)) by naive_solver. run_M.
    destruct (decide (filename ∈ files_to_download)) as [Hd|Hd].
    + rewrite (bool_decide_true _ Hd). cbn [andb].
      destruct (negb _); run_M.
      2: { close_events 1. naive_solver. }
      destruct (http_ok net url); run_M.
      * close_events 4. naive_solver.
      * close_events 3. naive_solver.
    + rewrite (bool_decide_false _ Hd). cbn [andb]. run_M.
      close_events 1. naive_solver.
  - rewrite (bool_decide_true (filename ∉ S)) by done. run_M.
    destruct (http_ok net url); run_M.
    2: { close_events 1. naive_solver. }
    destruct (upload_ok net (p +:+ filename)); run_M.
    2: { close_events 2. naive_solver. }
    destruct (_ && _); run_M.
    + close_events 5. naive_solver.
    + close_events 3. naive_solver.
Qed.

(** When the network and the store answer well, a turn completes and
    uploads exactly the names that have a URL and are not in the store. *)
Lemma upload_item_ok S p filename loc w :
  (∀ u, http_ok net u = true) → (∀ k, upload_ok net k = true) →
  ∃ w1 evs,
    upload_item net S p (filename, loc) w = (Ok (), w1)
    ∧ trace w1 = trace w ++ evs
    ∧ uploaded_keys evs
      = (λ n, p +:+ n) <$> filter (λ n, n ∉ S) (fetchable [(filename, loc)]).
Proof.
  intros Hh Hu. destruct loc as [url|]; run_M.
  2: { eexists _, []. by rewrite app_nil_r. }
  rewrite fetchable_cons_Some. change (fetchable []) with (@nil string).
  destruct (decide (filename ∈ S)) as [HS|HS].
  - rewrite (bool_decide_false (filename ∉ S)) by naive_solver. run_M.
    rewrite filter_cons_False by naive_solver.
    destruct (_ && _); run_M.
    + rewrite Hh. run_M. eexists _, [_;_;_;_]. split; [done|].
      cbn. by rewrite <- !app_assoc.
    + eexists _, [_]. by split.
  - rewrite (bool_decide_true (filename ∉ S)) by done. run_M.
    rewrite filter_cons_True by done.
    rewrite Hh. run_M. rewrite Hu. run_M.
    destruct (_ && _); run_M.
    + eexists _, [_;_;_;_;_]. split; [done|]. cbn. by rewrite <- !app_assoc.
    + eexists _, [_;_;_]. split; [done|]. cbn. by rewrite <- !app_assoc.
Qed.

(** The whole loop, whatever the network does. *)
Lemma upload_files_events R S p w :
  ∃ evs,
    trace (upload_files_to_s3 net R S p w).2 = trace w ++ evs
    ∧ (∀ name, name ∈ fetched_names evs → name ∈ dict_keys R)
    ∧ (dict_wf R → NoDup (fetched_names evs))
    ∧ (∀ name, name ∈ S → name ∈ fetched_names evs →
         name ∈ files_to_download)
    ∧ (∀ key, key ∈ uploaded_keys evs →
         ∃ name, key = p +:+ name ∧ (name ∉ S) ∧ name ∈ fetchable R)
    ∧ delete_batches evs = [].
Proof.
  unfold upload_files_to_s3. revert w.
  induction R as [|[filename loc] R IH]; intros w.
  - exists []. rewrite app_nil_r. cbn.
    split; [done|]. split; [|split; [|split; [|split]]].
    + intros name H. by apply elem_of_nil in H.
    + intros _. constructor.
    + intros name _ H. by apply elem_of_nil in H.
    + intros key H. by apply elem_of_nil in H.
    + done.
  - rewrite for_each_cons.
    destruct (upload_item_events S p filename loc w)
      as (e1 & Ht1 & Hf1 & Hu1 & Hs1 & Hd1).
    assert (Hfetch1 : ∀ name, name ∈ fetched_names e1 → name = filename).
    { intros name. destruct Hf1 as [-> | ->].
      - intros H. by apply elem_of_nil in H.
      - by intros ->%list_elem_of_singleton. }
    assert (Hup1 : ∀ key, key ∈ uploaded_keys e1 →
              key = p +:+ filename ∧ (filename ∉ S) ∧ is_Some loc).
    { intros key. destruct Hu1 as [-> | (-> & ? & ?)].
      - intros H. by apply elem_of_nil in H.
      - by intros ->%list_elem_of_singleton. }
    assert (Hfb : is_Some loc → filename ∈ fetchable ((filename, loc) :: R)).
    { intros [url ->]. rewrite fetchable_cons_Some. apply elem_of_cons. by left. }
    assert (Hfb' : ∀ name, name ∈ fetchable R →
              name ∈ fetchable ((filename, loc) :: R)).
    { intros name Hn. destruct loc as [url|].
      - rewrite fetchable_cons_Some. apply elem_of_cons. by right.
      - by rewrite fetchable_cons_None. }
    destruct (upload_item net S p (filename, loc) w) as [[[]|e] w1];
      cbn [snd] in Ht1.
    + destruct (IH w1) as (e2 & Ht2 & Hk2 & Hn2 & Hs2 & Hu2 & Hd2).
      exists (e1 ++ e2). rewrite Ht2, Ht1, <- app_assoc.
      rewrite fetched_names_app, uploaded_keys_app, delete_batches_app.
      split; [done|]. split; [|split; [|split; [|split]]].
      * intros name [H|H]%elem_of_app; cbn; apply elem_of_cons.
        -- left. by apply Hfetch1.
        -- right. by apply Hk2.
      * intros Hwf. apply NoDup_cons in Hwf as [Hnotin Hwf].
        apply NoDup_app. split; [|split; [|by apply Hn2]].
        -- destruct Hf1 as [-> | ->]; [constructor|apply NoDup_singleton].
        -- intros name H1 H2. apply Hfetch1 in H1 as ->.
           apply Hnotin. by apply Hk2.
      * intros name HS [H|H]%elem_of_app; [|by apply Hs2].
        pose proof (Hfetch1 _ H) as Heq. subst name. apply Hs1; [done|].
        destruct Hf1 as [Hf1 | Hf1]; [|done].
        rewrite Hf1 in H. by apply elem_of_nil in H.
      * intros key [H|H]%elem_of_app.
        -- destruct (Hup1 _ H) as (-> & ? & ?). exists filename. auto.
        -- destruct (Hu2 _ H) as (name & -> & ? & ?). exists name. auto.
      * by rewrite Hd1, Hd2.
    + exists e1. split; [done|]. split; [|split; [|split; [|split]]].
      * intros name H. cbn. apply elem_of_cons. left. by apply Hfetch1.
      * intros _. destruct Hf1 as [-> | ->]; [constructor|apply NoDup_singleton].
      * intros name HS H. pose proof (Hfetch1 _ H) as Heq. subst name.
        apply Hs1; [done|].
        destruct Hf1 as [Hf1 | Hf1]; [|done].
        rewrite Hf1 in H. by apply elem_of_nil in H.
      * intros key H. destruct (Hup1 _ H) as (-> & ? & ?). exists filename. auto.
      * done.
Qed.

(** The whole loop when every GET and every upload succeeds. *)
Lemma upload_files_ok R S p w :
  (∀ u, http_ok net u = true) → (∀ k, upload_ok net k = true) →
  ∃ w1 evs,
    upload_files_to_s3 net R S p w = (Ok (), w1)
    ∧ trace w1 = trace w ++ evs
    ∧ uploaded_keys evs
      = (λ n, p +:+ n) <$> filter (λ n, n ∉ S) (fetchable R)
    ∧ delete_batches evs = [].
Proof.
  intros Hh Hu. unfold upload_files_to_s3. revert w.
  induction R as [|[filename loc] R IH]; intros w.
  - eexists _, []. by rewrite app_nil_r.
  - rewrite for_each_cons.
    destruct (upload_item_events S p filename loc w)
      as (e1' & Ht1' & _ & _ & _ & Hd1).
    destruct (upload_item_ok S p filename loc w Hh Hu)
      as (w1 & e1 & Hr & Ht1 & Hk1).
    rewrite Hr in Ht1' |- *. cbn [snd] in Ht1'.
    rewrite Ht1 in Ht1'. apply app_inv_head in Ht1'. subst e1'.
    destruct (IH w1) as (w2 & e2 & -> & Ht2 & Hk2 & Hd2).
    exists w2, (e1 ++ e2). split; [done|].
    rewrite Ht2, Ht1, <- app_assoc. split; [done|].
    rewrite uploaded_keys_app, delete_batches_app, Hk1, Hk2, Hd1, Hd2.
    split; [|done]. rewrite <- fmap_app, <- filter_app. do 2 f_equal.
    destruct loc; [by rewrite !fetchable_cons_Some|by rewrite !fetchable_cons_None].
Qed.

End Upload.

(** ** The batch delete *)

Section Remove.

Context (net : env).
Implicit Types (R : dict) (S : list string) (p name : string) (w : world).

Lemma remove_files_none R S p w :
  files_to_delete R S = ∅ →
  remove_files_from_s3 net R S p w
  = (Ok (), emit (Print "No files to delete.") w).
Proof.
  intros H. unfold remove_files_from_s3. rewrite H, elements_empty. done.
Qed.

Lemma remove_files_some R S p w :
  files_to_delete R S ≠ ∅ →
  let keys := (λ f, p +:+ f) <$> elements (files_to_delete R S) in
  remove_files_from_s3 net R S p w
  = (Ok (),
     World (trace w ++
              [ Print "Deleting obsolete files from S3...";
                S3DeleteObjects keys (filter (λ k, delete_ok net k = true) keys);
                Print (deleted_message (size (files_to_delete R S))) ])
           (local_files w)).
Proof.
  intros H keys. unfold remove_files_from_s3.
  assert (Hsize : size (files_to_delete R S) = length keys).
  { unfold keys. by rewrite length_fmap. }
  rewrite Hsize. subst keys.
  destruct (elements (files_to_delete R S)) as [|name names] eqn:E.
  { by apply elements_empty_inv, leibniz_equiv in E. }
  run_M. unfold deleted_message. by rewrite <- !app_assoc.
Qed.

Lemma remove_files_requests R S p w :
  ∃ evs,
    remove_files_from_s3 net R S p w
    = (Ok (), World (trace w ++ evs) (local_files w))
    ∧ delete_requests evs = (λ f, p +:+ f) <$> elements (files_to_delete R S)
    ∧ uploaded_keys evs = [].
Proof.
  destruct (decide (files_to_delete R S = ∅)) as [H|H].
  - rewrite remove_files_none by done. eexists [_]. split; [done|].
    by rewrite H, elements_empty.
  - rewrite remove_files_some by done. eexists [_;_;_]. split; [done|].
    unfold delete_requests. cbn. by rewrite app_nil_r.
Qed.

End Remove.

Lemma dict_get_keys (R : dict) name v : dict_get R name = Some v → name ∈ dict_keys R.
Proof.
  induction R as [|[k u] R IH]; [done|]. cbn.
  destruct (decide (k = name)) as [->|].
  - intros _. apply elem_of_cons. by left.
  - intros H. apply elem_of_cons. right. by apply IH.
Qed.

Lemma dict_get_set_eq (R : dict) name v : dict_get (dict_set R name v) name = Some v.
Proof.
  induction R as [|[k u] R IH]; cbn.
  - by rewrite decide_True.
  - destruct (decide (k = name)) as [->|Hne]; cbn.
    + by rewrite decide_True.
    + by rewrite decide_False.
Qed.

Lemma dict_get_set_ne (R : dict) name name' v :
  name ≠ name' → dict_get (dict_set R name v) name' = dict_get R name'.
Proof.
  intros Hne. induction R as [|[k u] R IH]; cbn.
  - by rewrite decide_False.
  - destruct (decide (k = name)) as [->|Hk]; cbn.
    + by rewrite !decide_False.
    + destruct (decide (k = name')); [done|apply IH].
Qed.

(** [sync_bucket] marks both generated documents as present and without
    a URL before it plans. *)
Lemma protect_index (R : dict) : dict_get (protect R) "index.html" = Some None.
Proof.
  unfold protect. rewrite dict_get_set_ne by done. apply dict_get_set_eq.
Qed.

Lemma protect_dataset2 (R : dict) :
  dict_get (protect R) DATASET2_JSON_FILE = Some None.
Proof. unfold protect. apply dict_get_set_eq. Qed.

(** Pagination is complete: for a non-empty prefix and any listing, whatever the number and
    sizes of its pages, [get_s3_objects] returns a list with exactly one
    name for each non-marker key of all the pages, in order: nothing is
    cut at the first page. *)
Theorem get_s3_objects_all_pages (store : listing) (p : string) :
  p ≠ EmptyString →
  ∃ names,
    get_s3_objects store p = Ok names
    ∧ length names = length (non_marker_keys store)
    ∧ Forall2 (λ key name, key_name p key = Ok name) (non_marker_keys store) names.
Proof.
  intros Hp. unfold get_s3_objects, paginate.
  destruct (get_s3_objects_pages_ok p store [] Hp) as (names & H & HF).
  exists names. split; [done|]. split; [|done].
  symmetry. by eapply Forall2_length.
Qed.

Lemma get_s3_objects_all_pages_witness :
  "dataset/" ≠ EmptyString
  ∧ ∃ names,
      get_s3_objects store_3x2 "dataset/" = Ok names
      ∧ length names = length (non_marker_keys store_3x2)
      ∧ Forall2 (λ key name, key_name "dataset/" key = Ok name)
          (non_marker_keys store_3x2) names.
Proof.
  split; [discriminate|].
  apply (get_s3_objects_all_pages store_3x2 "dataset/"). discriminate.
Defined.

Example get_s3_objects_3x2 :
  get_s3_objects store_3x2 "dataset/"
  = Ok ["a.txt"; "b.txt"; "c.txt"; "d.txt"; "e.txt"; "f.txt"].
Proof. reflexivity. Qed.

(** C4: a key in which the prefix occurs a second time does not keep its
    suffix: ["dataset/a/dataset/b.txt"] under ["dataset/"] is listed as
    ["a/"], not as ["a/dataset/b.txt"]. *)
Theorem key_name_repeated_prefix :
  key_name "dataset/" ("dataset/" +:+ "a/dataset/b.txt") = Ok "a/"
  ∧ get_s3_objects [Page (Some ["dataset/a/dataset/b.txt"])] "dataset/" = Ok ["a/"].
Proof. split; reflexivity. Qed.

Example key_name_own_upload :
  key_name "pr." ("pr." +:+ "pr.data.0.Current") = Ok EmptyString.
Proof. reflexivity. Qed.

Example get_s3_objects_default_prefix :
  get_s3_objects [Page (Some ["a.txt"])] EmptyString
  = Err (ValueError "empty separator").
Proof. reflexivity. Qed.

(** ** The plan: uploads and deletes *)

Lemma to_upload_set (R : dict) (S : list string) :
  list_to_set (filter (λ n, n ∉ S) (fetchable R)) =@{gset string}
  list_to_set (fetchable R) ∖ list_to_set S.
Proof.
  apply set_eq. intros x.
  rewrite elem_of_difference, !elem_of_list_to_set, list_elem_of_filter.
  tauto.
Qed.

(** C1, as the specification states it, fails on its own scenario: the
    entry without a URL is in [keys(R) − S] but is not uploaded. *)
Lemma diff_as_stated_fails :
  ¬ diff_as_stated catalog_scenario ["a.txt"; "c.txt"] "dataset/".
Proof.
  intros (w1 & to_upload & Hrun & Hkeys & Hset).
  vm_compute in Hrun. injection Hrun as <-.
  assert (Hin : "index.html" ∈ to_upload).
  { apply (elem_of_list_to_set (C := gset string)). rewrite Hset.
    apply elem_of_difference. split.
    - apply elem_of_list_to_set. cbn. rewrite !elem_of_cons. tauto.
    - rewrite elem_of_list_to_set, !elem_of_cons, elem_of_nil.
      intros [H|[H|[]]]; discriminate H. }
  apply (list_elem_of_fmap_2 (λ n, "dataset/" +:+ n)) in Hin.
  rewrite <- Hkeys in Hin. cbn in Hin.
  apply list_elem_of_singleton in Hin. discriminate Hin.
Qed.

(** C1 (amended): when every GET and every upload succeeds, the upload
    loop transfers exactly the names that have a URL and are not in the
    store, the batch delete requests exactly the store names that are not
    keys of the catalog, each under the prefix, and the two sets of names
    are disjoint. *)
Theorem sync_plan_diff (net : env) (R : dict) (S : list string) (p : string)
    (w : world) :
  (∀ u, http_ok net u = true) → (∀ k, upload_ok net k = true) →
  ∃ w1 w2 to_upload to_delete,
    upload_files_to_s3 net R S p w = (Ok (), w1)
    ∧ remove_files_from_s3 net R S p w1 = (Ok (), w2)
    ∧ uploaded_keys (trace w2)
      = uploaded_keys (trace w) ++ ((λ n, p +:+ n) <$> to_upload)
    ∧ delete_requests (trace w2)
      = delete_requests (trace w) ++ ((λ n, p +:+ n) <$> to_delete)
    ∧ list_to_set to_upload =@{gset string}
      list_to_set (fetchable R) ∖ list_to_set S
    ∧ list_to_set to_delete =@{gset string}
      list_to_set S ∖ list_to_set (dict_keys R)
    ∧ list_to_set to_upload ##@{gset string} list_to_set to_delete.
Proof.
  intros Hh Hu.
  destruct (upload_files_ok net R S p w Hh Hu) as (w1 & e1 & Hr1 & Ht1 & Hk1 & Hd1).
  destruct (remove_files_requests net R S p w1) as (e2 & Hr2 & Hd2 & Hk2).
  eexists w1, _, (filter (λ n, n ∉ S) (fetchable R)),
    (elements (files_to_delete R S)).
  split; [done|]. split; [done|]. cbn [trace].
  rewrite Ht1, !uploaded_keys_app, Hk1, Hk2, app_nil_r.
  rewrite !delete_requests_app, Hd2.
  assert (delete_requests e1 = []) as ->.
  { unfold delete_requests. by rewrite Hd1. }
  rewrite app_nil_r.
  split; [done|]. split; [done|].
  rewrite to_upload_set, list_to_set_elements_L. unfold files_to_delete.
  split; [done|]. split; [done|].
  intros x [H1 H2]%elem_of_difference [H3 H4]%elem_of_difference.
  apply H4. apply elem_of_list_to_set.
  apply fetchable_keys. by apply elem_of_list_to_set in H1.
Qed.

Lemma sync_plan_diff_witness :
  (∀ u, http_ok all_ok u = true) ∧ (∀ k, upload_ok all_ok k = true)
  ∧ ∃ w1 w2 to_upload to_delete,
      upload_files_to_s3 all_ok catalog_scenario ["a.txt"; "c.txt"] "dataset/" w0
      = (Ok (), w1)
      ∧ remove_files_from_s3 all_ok catalog_scenario ["a.txt"; "c.txt"] "dataset/" w1
        = (Ok (), w2)
      ∧ uploaded_keys (trace w2)
        = uploaded_keys (trace w0) ++ ((λ n, "dataset/" +:+ n) <$> to_upload)
      ∧ delete_requests (trace w2)
        = delete_requests (trace w0) ++ ((λ n, "dataset/" +:+ n) <$> to_delete)
      ∧ list_to_set to_upload =@{gset string}
        list_to_set (fetchable catalog_scenario) ∖ list_to_set ["a.txt"; "c.txt"]
      ∧ list_to_set to_delete =@{gset string}
        list_to_set ["a.txt"; "c.txt"] ∖ list_to_set (dict_keys catalog_scenario)
      ∧ list_to_set to_upload ##@{gset string} list_to_set to_delete.
Proof.
  split; [reflexivity|]. split; [reflexivity|].
  apply (sync_plan_diff all_ok catalog_scenario ["a.txt"; "c.txt"] "dataset/" w0);
    reflexivity.
Defined.

Example scenario_uploads_and_deletes :
  run (upload_files_to_s3 all_ok catalog_scenario ["a.txt"; "c.txt"] "dataset/";;
       remove_files_from_s3 all_ok catalog_scenario ["a.txt"; "c.txt"] "dataset/")
  = (Ok (),
     [ Print "Skipping a.txt, already in S3.";
       HttpGet "b.txt" "https://remote/b.txt";
       Print "Uploading b.txt to S3...";
       S3UploadFileobj "dataset/b.txt";
       Print "Deleting obsolete files from S3...";
       S3DeleteObjects ["dataset/c.txt"] ["dataset/c.txt"];
       Print "Deleted 1 files." ]).
Proof. vm_compute. reflexivity. Qed.

(** ** Failures in the upload loop *)

(** A turn that raises: the exception names the URL that was fetched or
    the key that was being written, and nothing was uploaded. *)
Lemma upload_item_raises (net : env) (S : list string) (p filename : string)
    (loc : option string) (w w' : world) (e : exn) :
  upload_item net S p (filename, loc) w = (Err e, w') →
  ∃ url evs,
    loc = Some url
    ∧ (e = HTTPError url ∨ e = S3UploadFailedError (p +:+ filename))
    ∧ trace w' = trace w ++ evs
    ∧ fetched_names evs = [filename]
    ∧ uploaded_keys evs = [].
Proof.
  destruct loc as [url|]; run_M; [|done].
  intros H. exists url.
  destruct (bool_decide (filename ∉ S)); run_M; revert H; run_M.
  - destruct (http_ok net url); run_M.
    2: { intros [= <- <-]. eexists [_]. cbn. auto. }
    destruct (upload_ok net (p +:+ filename)); run_M.
    2: { intros [= <- <-]. eexists [_;_]. cbn. rewrite <- !app_assoc. auto. }
    destruct (_ && _); run_M; discriminate.
  - destruct (_ && _); run_M; [|discriminate].
    destruct (http_ok net url); run_M; [discriminate|].
    intros [= <- <-]. eexists [_;_;_]. cbn. rewrite <- !app_assoc. auto.
Qed.

(** C2, as the specification states it, fails: when the GET of the first
    of two items fails, the second is never fetched. *)
Lemma isolation_as_stated_fails :
  ¬ isolation_as_stated (net_failing_get "https://remote/a.txt")
      catalog_ab [] "dataset/".
Proof.
  intros H. specialize (H "b.txt" "https://remote/b.txt").
  vm_compute in H. 
  assert (Hin : "b.txt" ∈ ["a.txt"]).
  { apply H.
    - apply elem_of_cons. right. apply elem_of_cons. by left.
    - apply not_elem_of_nil. }
  apply list_elem_of_singleton in Hin. discriminate Hin.
Qed.

Example first_failure_stops_the_loop :
  run (upload_files_to_s3 (net_failing_get "https://remote/a.txt")
         catalog_ab [] "dataset/")
  = (Err (HTTPError "https://remote/a.txt"),
     [HttpGet "a.txt" "https://remote/a.txt"]).
Proof. vm_compute. reflexivity. Qed.

(** C2 (amended): when the turn of item [k] raises, after the items
    before it were processed without error, [upload_files_to_s3] raises
    the same exception, which names the URL or the key of [k]; what was
    done is what was done for the items before [k] and for [k] itself;
    [k] is not uploaded and no item after [k] is fetched or uploaded. *)
Theorem upload_failure_aborts (net : env) (pre post : dict) (k : string)
    (loc : option string) (S : list string) (p : string) (w w1 w2 : world)
    (e : exn) :
  upload_files_to_s3 net pre S p w = (Ok (), w1) →
  upload_item net S p (k, loc) w1 = (Err e, w2) →
  upload_files_to_s3 net (pre ++ (k, loc) :: post) S p w = (Err e, w2)
  ∧ (∃ url, loc = Some url
            ∧ (e = HTTPError url ∨ e = S3UploadFailedError (p +:+ k)))
  ∧ ∃ evs,
      trace w2 = trace w ++ evs
      ∧ (∀ name, name ∈ fetched_names evs → name ∈ dict_keys pre ∨ name = k)
      ∧ (∀ key, key ∈ uploaded_keys evs →
           ∃ name, key = p +:+ name ∧ name ∈ dict_keys pre).
Proof.
  intros Hpre Hk. split.
  { unfold upload_files_to_s3 in *. by eapply for_each_abort. }
  destruct (upload_item_raises _ _ _ _ _ _ _ _ Hk)
    as (url & e2 & Hloc & He & Ht2 & Hf2 & Hu2).
  split; [by exists url|].
  destruct (upload_files_events net pre S p w)
    as (e1 & Ht1 & Hf1 & _ & _ & Hu1 & _).
  rewrite Hpre in Ht1. cbn [snd] in Ht1.
  exists (e1 ++ e2). rewrite Ht2, Ht1, <- app_assoc. split; [done|].
  rewrite fetched_names_app, uploaded_keys_app, Hf2, Hu2, app_nil_r. split.
  - intros name [H|H]%elem_of_app.
    + left. by apply Hf1.
    + right. by apply list_elem_of_singleton in H.
  - intros key H. destruct (Hu1 _ H) as (name & -> & _ & Hn).
    exists name. split; [done|]. by apply fetchable_keys.
Qed.

Lemma upload_failure_aborts_witness :
  upload_files_to_s3 net_b_fails catalog_abc_pre [] "dataset/" w0
  = (Ok (), world_a_uploaded)
  ∧ upload_item net_b_fails [] "dataset/"
      ("b.txt", Some "https://remote/b.txt") world_a_uploaded
    = (Err (HTTPError "https://remote/b.txt"), world_b_failed)
  ∧ upload_files_to_s3 net_b_fails
      (catalog_abc_pre ++ ("b.txt", Some "https://remote/b.txt") :: catalog_abc_post)
      [] "dataset/" w0
    = (Err (HTTPError "https://remote/b.txt"), world_b_failed)
  ∧ (∃ url, Some "https://remote/b.txt" = Some url
            ∧ (HTTPError "https://remote/b.txt" = HTTPError url
               ∨ HTTPError "https://remote/b.txt"
                 = S3UploadFailedError ("dataset/" +:+ "b.txt")))
  ∧ ∃ evs,
      trace world_b_failed = trace w0 ++ evs
      ∧ (∀ name, name ∈ fetched_names evs →
           name ∈ dict_keys catalog_abc_pre ∨ name = "b.txt")
      ∧ (∀ key, key ∈ uploaded_keys evs →
           ∃ name, key = "dataset/" +:+ name ∧ name ∈ dict_keys catalog_abc_pre).
Proof.
  split; [vm_compute; reflexivity|]. split; [vm_compute; reflexivity|].
  apply (upload_failure_aborts net_b_fails catalog_abc_pre catalog_abc_post
           "b.txt" (Some "https://remote/b.txt") [] "dataset/" w0
           world_a_uploaded world_b_failed (HTTPError "https://remote/b.txt"));
    vm_compute; reflexivity.
Defined.

(** ** The reported number of deleted files *)

(** C3, as the specification states it, fails on its own scenario: of
    the two keys requested one is deleted, and the line printed says 2. *)
Lemma deleted_count_as_stated_fails :
  ¬ deleted_count_as_stated (net_failing_delete "dataset/d.txt")
      [] ["c.txt"; "d.txt"] "dataset/".
Proof.
  intros H.
  specialize (H ["dataset/c.txt"; "dataset/d.txt"] ["dataset/c.txt"]).
  vm_compute in H.
  assert (Hin : "Deleted 1 files."
                ∈ ["Deleting obsolete files from S3..."; "Deleted 2 files."]).
  { apply H. apply list_elem_of_singleton. reflexivity. }
  rewrite !elem_of_cons, elem_of_nil in Hin.
  destruct Hin as [Hin|[Hin|[]]]; discriminate Hin.
Qed.

Example partial_delete_reports_requested :
  run (remove_files_from_s3 (net_failing_delete "dataset/d.txt")
         [] ["c.txt"; "d.txt"] "dataset/")
  = (Ok (),
     [ Print "Deleting obsolete files from S3...";
       S3DeleteObjects ["dataset/c.txt"; "dataset/d.txt"] ["dataset/c.txt"];
       Print "Deleted 2 files." ]).
Proof. vm_compute. reflexivity. Qed.

(** C3 (amended): for every non-empty set to delete, whatever the store
    does with the keys of the batch, the call returns normally and the
    count printed is the number of keys requested, the size of the set. *)
Theorem deleted_count_is_requested (net : env) (R : dict) (S : list string)
    (p : string) (w : world) :
  files_to_delete R S ≠ ∅ →
  ∃ keys deleted w',
    remove_files_from_s3 net R S p w = (Ok (), w')
    ∧ trace w'
      = trace w ++ [ Print "Deleting obsolete files from S3...";
                     S3DeleteObjects keys deleted;
                     Print (deleted_message (length keys)) ]
    ∧ keys = (λ f, p +:+ f) <$> elements (files_to_delete R S)
    ∧ length keys = size (files_to_delete R S)
    ∧ deleted = filter (λ k, delete_ok net k = true) keys.
Proof.
  intros H. rewrite remove_files_some by done.
  set (keys := (λ f, p +:+ f) <$> elements (files_to_delete R S)).
  assert (Hlen : length keys = size (files_to_delete R S)).
  { unfold keys. by rewrite length_fmap. }
  exists keys, (filter (λ k, delete_ok net k = true) keys).
  eexists. split; [reflexivity|]. cbn [trace]. rewrite Hlen. by repeat split.
Qed.

Lemma deleted_count_is_requested_witness :
  files_to_delete [] ["c.txt"; "d.txt"] ≠ ∅
  ∧ ∃ keys deleted w',
      remove_files_from_s3 (net_failing_delete "dataset/d.txt")
        [] ["c.txt"; "d.txt"] "dataset/" w0 = (Ok (), w')
      ∧ trace w'
        = trace w0 ++ [ Print "Deleting obsolete files from S3...";
                        S3DeleteObjects keys deleted;
                        Print (deleted_message (length keys)) ]
      ∧ keys = (λ f, "dataset/" +:+ f)
               <$> elements (files_to_delete [] ["c.txt"; "d.txt"])
      ∧ length keys = size (files_to_delete [] ["c.txt"; "d.txt"])
      ∧ deleted
        = filter (λ k, delete_ok (net_failing_delete "dataset/d.txt") k = true) keys.
Proof.
  assert (Hne : files_to_delete [] ["c.txt"; "d.txt"] ≠ ∅).
  { intros H. assert (Hin : "c.txt" ∈ files_to_delete [] ["c.txt"; "d.txt"]).
    { unfold files_to_delete. apply elem_of_difference. split.
      - apply elem_of_list_to_set, elem_of_cons. by left.
      - cbn. apply not_elem_of_empty. }
    rewrite H in Hin. by apply not_elem_of_empty in Hin. }
  split; [exact Hne|].
  exact (deleted_count_is_requested (net_failing_delete "dataset/d.txt")
           [] ["c.txt"; "d.txt"] "dataset/" w0 Hne).
Defined.

(** ** Protected entries *)

(** C5: a name whose entry in the catalog has no URL is not in the set
    to delete, whatever the store holds, and its key is not part of the
    batch that is sent; [sync_bucket] gives such entries to the index
    page and to the second dataset. *)
Theorem protected_never_deleted (net : env) (R : dict) (S : list string)
    (p name : string) (w : world) :
  dict_get R name = Some None →
  (name ∉ files_to_delete R S)
  ∧ (∀ keys deleted,
       (keys, deleted) ∈ delete_batches (trace (remove_files_from_s3 net R S p w).2) →
       (keys, deleted) ∈ delete_batches (trace w) ∨ (p +:+ name) ∉ keys)
  ∧ dict_get (protect R) "index.html" = Some None
  ∧ dict_get (protect R) DATASET2_JSON_FILE = Some None.
Proof.
  intros Hget.
  assert (Hnot : name ∉ files_to_delete R S).
  { unfold files_to_delete. intros [_ H]%elem_of_difference. apply H.
    apply elem_of_list_to_set. by eapply dict_get_keys. }
  split; [done|]. split; [|split; [apply protect_index|apply protect_dataset2]].
  intros keys deleted.
  destruct (decide (files_to_delete R S = ∅)) as [He|He].
  - rewrite remove_files_none by done. cbn. rewrite delete_batches_app. cbn.
    rewrite app_nil_r. by left.
  - rewrite remove_files_some by done. cbn [snd trace].
    rewrite delete_batches_app. cbn.
    intros [H|H]%elem_of_app; [by left|right].
    apply list_elem_of_singleton in H. injection H as -> _.
    intros (f & Heq & Hf)%list_elem_of_fmap.
    apply str_app_inj_l in Heq as <-. by apply elem_of_elements in Hf.
Qed.

Lemma protected_never_deleted_witness :
  dict_get (protect catalog_ab) "index.html" = Some None
  ∧ ("index.html" ∉ files_to_delete (protect catalog_ab) ["index.html"; "old.txt"])
  ∧ (∀ keys deleted,
       (keys, deleted)
       ∈ delete_batches
           (trace (remove_files_from_s3 all_ok (protect catalog_ab)
                     ["index.html"; "old.txt"] "dataset/" w0).2) →
       (keys, deleted) ∈ delete_batches (trace w0)
       ∨ ("dataset/" +:+ "index.html") ∉ keys)
  ∧ dict_get (protect (protect catalog_ab)) "index.html" = Some None
  ∧ dict_get (protect (protect catalog_ab)) DATASET2_JSON_FILE = Some None.
Proof.
  split; [reflexivity|].
  apply (protected_never_deleted all_ok (protect catalog_ab)
           ["index.html"; "old.txt"] "dataset/" "index.html" w0).
  reflexivity.
Defined.

(** ** A store already in sync *)

(** C7: when the names in the store are exactly the keys of the catalog,
    the upload loop uploads nothing, whatever the network does, the set
    to delete is empty and no batch delete is sent. *)
Theorem in_sync_nothing_to_do (net : env) (R : dict) (S : list string)
    (p : string) (w : world) :
  list_to_set S =@{gset string} list_to_set (dict_keys R) →
  (∃ evs,
     trace (upload_files_to_s3 net R S p w).2 = trace w ++ evs
     ∧ uploaded_keys evs = [])
  ∧ files_to_delete R S = ∅
  ∧ ∀ w', remove_files_from_s3 net R S p w'
          = (Ok (), emit (Print "No files to delete.") w').
Proof.
  intros Heq.
  assert (Hdel : files_to_delete R S = ∅).
  { unfold files_to_delete. rewrite Heq. apply set_eq. intros x.
    rewrite elem_of_difference. split; [tauto|].
    intros H. by apply not_elem_of_empty in H. }
  split; [|split; [done|]].
  - destruct (upload_files_events net R S p w) as (evs & Ht & _ & _ & _ & Hu & _).
    exists evs. split; [done|].
    destruct (uploaded_keys evs) as [|key keys]; [done|]. exfalso.
    destruct (Hu key) as (name & _ & HnS & Hn); [apply elem_of_cons; by left|].
    apply HnS. apply (elem_of_list_to_set (C := gset string)). rewrite Heq.
    apply elem_of_list_to_set. by apply fetchable_keys.
  - intros w'. by apply remove_files_none.
Qed.

Lemma in_sync_nothing_to_do_witness :
  list_to_set ["a.txt"; "b.txt"] =@{gset string} list_to_set (dict_keys catalog_ab)
  ∧ (∃ evs,
       trace (upload_files_to_s3 all_ok catalog_ab ["a.txt"; "b.txt"] "dataset/" w0).2
       = trace w0 ++ evs
       ∧ uploaded_keys evs = [])
  ∧ files_to_delete catalog_ab ["a.txt"; "b.txt"] = ∅
  ∧ ∀ w', remove_files_from_s3 all_ok catalog_ab ["a.txt"; "b.txt"] "dataset/" w'
          = (Ok (), emit (Print "No files to delete.") w').
Proof.
  split; [reflexivity|].
  apply (in_sync_nothing_to_do all_ok catalog_ab ["a.txt"; "b.txt"] "dataset/" w0).
  reflexivity.
Defined.

Example in_sync_run :
  run (upload_files_to_s3 all_ok catalog_ab ["a.txt"; "b.txt"] "dataset/";;
       remove_files_from_s3 all_ok catalog_ab ["a.txt"; "b.txt"] "dataset/")
  = (Ok (),
     [ Print "Skipping a.txt, already in S3.";
       Print "Skipping b.txt, already in S3.";
       Print "No files to delete." ]).
Proof. vm_compute. reflexivity. Qed.

(** ** Fetches *)

(** Fetches are not repeated: in one run of the upload loop over a catalog
    with distinct keys,
    no name is fetched twice and only names of the catalog are fetched; a
    name that is in the store is not uploaded, and is fetched only if it
    is on the list of files to keep locally. *)
Theorem one_fetch_per_name (net : env) (R : dict) (S : list string)
    (p : string) (w : world) :
  dict_wf R →
  ∃ evs,
    trace (upload_files_to_s3 net R S p w).2 = trace w ++ evs
    ∧ NoDup (fetched_names evs)
    ∧ (∀ name, name ∈ fetched_names evs → name ∈ dict_keys R)
    ∧ (∀ name, name ∈ S →
         ((p +:+ name) ∉ uploaded_keys evs)
         ∧ (name ∈ fetched_names evs → name ∈ files_to_download)).
Proof.
  intros Hwf.
  destruct (upload_files_events net R S p w) as (evs & Ht & Hk & Hn & Hs & Hu & _).
  exists evs. split; [done|]. split; [by apply Hn|]. split; [done|].
  intros name HS. split; [|by apply Hs].
  intros H. destruct (Hu _ H) as (name' & Heq & HnS & _).
  apply str_app_inj_l in Heq as <-. by apply HnS.
Qed.

Lemma one_fetch_per_name_witness :
  dict_wf catalog_ab
  ∧ ∃ evs,
      trace (upload_files_to_s3 all_ok catalog_ab ["a.txt"] "dataset/" w0).2
      = trace w0 ++ evs
      ∧ NoDup (fetched_names evs)
      ∧ (∀ name, name ∈ fetched_names evs → name ∈ dict_keys catalog_ab)
      ∧ (∀ name, name ∈ ["a.txt"] →
           (("dataset/" +:+ name) ∉ uploaded_keys evs)
           ∧ (name ∈ fetched_names evs → name ∈ files_to_download)).
Proof.
  assert (Hwf : dict_wf catalog_ab).
  { unfold dict_wf. cbn. apply NoDup_cons. split.
    - intros H%list_elem_of_singleton. discriminate H.
    - apply NoDup_singleton. }
  split; [exact Hwf|].
  exact (one_fetch_per_name all_ok catalog_ab ["a.txt"] "dataset/" w0 Hwf).
Defined.

(** A file that is uploaded and kept locally is fetched once; a file
    that is in the store and kept locally is fetched once, for the copy. *)
Example shared_fetch :
  run (upload_files_to_s3 all_ok
         [("pr.data.0.Current", Some "https://remote/pr.data.0.Current")]
         [] "dataset/")
  = (Ok (),
     [ HttpGet "pr.data.0.Current" "https://remote/pr.data.0.Current";
       Print "Uploading pr.data.0.Current to S3...";
       S3UploadFileobj "dataset/pr.data.0.Current";
       Print "Downloading pr.data.0.Current to local directory...";
       FileWrite "data/dataset1/pr.data.0.Current" ]).
Proof. vm_compute. reflexivity. Qed.

Example dedicated_fetch :
  run (upload_files_to_s3 all_ok
         [("pr.data.0.Current", Some "https://remote/pr.data.0.Current")]
         ["pr.data.0.Current"] "dataset/")
  = (Ok (),
     [ Print "Skipping pr.data.0.Current, already in S3.";
       Print "Downloading pr.data.0.Current to local directory...";
       HttpGet "pr.data.0.Current" "https://remote/pr.data.0.Current";
       FileWrite "data/dataset1/pr.data.0.Current" ]).
Proof. vm_compute. reflexivity. Qed.

(** ** The index page *)

Lemma index_lines_spec (contents html_lines : list string) :
  index_lines contents html_lines
  = Ok (html_lines ++ (index_entry <$> filter (λ key, is_marker key = false) contents)).
Proof.
  revert html_lines. induction contents as [|key contents IH]; intros html_lines.
  - cbn. by rewrite app_nil_r.
  - cbn [index_lines]. fold (is_marker key).
    destruct (is_marker key) eqn:Hm.
    + rewrite IH. by rewrite filter_cons_False by congruence.
    + change (PyStr.split key "/") with (Ok (PyStr.split_go "/" key 0)).
      cbn [mbind result_bind]. unfold PyStr.index_last.
      pose proof (split_go_nonempty "/" key 0) as Hne.
      destruct (last (PyStr.split_go "/" key 0)) as [filename|] eqn:Hlast.
      2: { by apply last_None in Hlast. }
      cbn [mbind result_bind].
      assert (Hentry : index_entry key = list_item (object_url key) filename).
      { unfold index_entry, basename. by rewrite Hlast. }
      rewrite IH, filter_cons_True by done.
      by rewrite <- app_assoc, fmap_cons, Hentry.
Qed.

(** X7: the document comes from the first response alone. *)
Lemma generate_index_html_first_page (first : list string) (rest : listing)
    (prefix : string) (w : world) :
  put_objects (trace (generate_index_html (Page (Some first) :: rest) prefix w).2)
  = put_objects (trace w)
    ++ [ (prefix +:+ "index.html",
          PyStr.join nl
            (index_header prefix
             ++ (index_entry <$> filter (λ key, is_marker key = false) first)
             ++ [index_footer])) ].
Proof.
  unfold generate_index_html. cbn [list_objects_v2 Contents].
  run_M. rewrite index_lines_spec. cbn [snd trace].
  rewrite !put_objects_app. cbn. rewrite !app_nil_r. reflexivity.
Qed.

(** C8: on a listing of three pages of two objects the index holds the
    two objects of the first page only, while [get_s3_objects] on the
    same listing returns all six. *)
Theorem index_lists_first_page_only :
  put_objects (run (generate_index_html store_3x2 "dataset/")).2
  = [ ("dataset/index.html",
       PyStr.join nl
         (index_header "dataset/"
          ++ [index_entry "dataset/a.txt"; index_entry "dataset/b.txt"]
          ++ [index_footer])) ]
  ∧ index_entry "dataset/a.txt"
    = list_item (object_url "dataset/a.txt") "a.txt"
  ∧ non_marker_keys store_3x2
    = [ "dataset/a.txt"; "dataset/b.txt"; "dataset/c.txt";
        "dataset/d.txt"; "dataset/e.txt"; "dataset/f.txt" ]
  ∧ get_s3_objects store_3x2 "dataset/"
    = Ok ["a.txt"; "b.txt"; "c.txt"; "d.txt"; "e.txt"; "f.txt"].
Proof. repeat split; vm_compute; reflexivity. Qed.

(** C10: when the response of the listing has no ['Contents'], nothing
    is put into the store: the function prints one line and returns. *)
Theorem empty_prefix_publishes_nothing (store : listing) (prefix : string)
    (w : world) :
  Contents (list_objects_v2 store) = None →
  generate_index_html store prefix w
  = (Ok (), emit (Print "No files found in S3 folder.") w)
  ∧ put_objects (trace (generate_index_html store prefix w).2)
    = put_objects (trace w).
Proof.
  intros H. unfold generate_index_html. rewrite H. split; [done|].
  cbn. rewrite put_objects_app. cbn. by rewrite app_nil_r.
Qed.

Lemma empty_prefix_publishes_nothing_witness :
  Contents (list_objects_v2 [Page None]) = None
  ∧ generate_index_html [Page None] "dataset/" w0
    = (Ok (), emit (Print "No files found in S3 folder.") w0)
  ∧ put_objects (trace (generate_index_html [Page None] "dataset/" w0).2)
    = put_objects (trace w0).
Proof.
  split; [reflexivity|].
  apply (empty_prefix_publishes_nothing [Page None] "dataset/" w0).
  reflexivity.
Defined.

(** With a ['Contents'] the document is put under [prefix + "index.html"]. *)
Example index_is_published :
  (run (generate_index_html [Page (Some ["dataset/"; "dataset/sub/a.txt"])]
          "dataset/")).2
  = [ S3PutObject "dataset/index.html"
        (PyStr.join nl
           (index_header "dataset/"
            ++ [list_item (object_url "dataset/sub/a.txt") "a.txt"]
            ++ [index_footer]))
        "text/html";
      Print "index.html uploaded to s3://rearc-quest-data-bhagath/dataset/index.html";
      Print "Access it via: https://rearc-quest-data-bhagath.s3.ap-south-1.amazonaws.com/dataset/index.html" ].
Proof. vm_compute. reflexivity. Qed.

(** ** The catalog that [sync_bucket] plans with *)

Section Protect.

Implicit Types (d : dict) (k x : string).

Lemma dict_keys_set d k v x :
  x ∈ dict_keys (dict_set d k v) ↔ x ∈ dict_keys d ∨ x = k.
Proof.
  induction d as [|[k' v'] d IH]; cbn.
  - rewrite list_elem_of_singleton, elem_of_nil. tauto.
  - destruct (decide (k' = k)) as [->|Hne]; cbn; rewrite !elem_of_cons.
    + tauto.
    + fold (dict_keys (dict_set d k v)). fold (dict_keys d).
      rewrite IH. tauto.
Qed.

Lemma dict_set_wf d k v : dict_wf d → dict_wf (dict_set d k v).
Proof.
  unfold dict_wf. induction d as [|[k' v'] d IH]; cbn.
  - intros _. apply NoDup_singleton.
  - intros [Hnotin Hwf]%NoDup_cons.
    destruct (decide (k' = k)) as [->|Hne]; cbn.
    + by apply NoDup_cons.
    + apply NoDup_cons. split; [|by apply IH].
      fold (dict_keys (dict_set d k v)). rewrite dict_keys_set.
      intros [H|H]; [by apply Hnotin|by apply Hne].
Qed.

Lemma protect_wf (R0 : dict) : dict_wf R0 → dict_wf (protect R0).
Proof. intros H. unfold protect. by do 2 apply dict_set_wf. Qed.

Lemma fetchable_set_None d k x :
  x ∈ fetchable d → x ≠ k → x ∈ fetchable (dict_set d k None).
Proof.
  intros Hx Hne. induction d as [|[k' [u|]] d IH]; cbn [dict_set].
  - by apply elem_of_nil in Hx.
  - rewrite fetchable_cons_Some in Hx. apply elem_of_cons in Hx.
    destruct (decide (k' = k)) as [->|Hk].
    + rewrite fetchable_cons_None. by destruct Hx as [->|Hx].
    + rewrite fetchable_cons_Some. apply elem_of_cons.
      destruct Hx as [->|Hx]; [by left|right; by apply IH].
  - rewrite fetchable_cons_None in Hx.
    destruct (decide (k' = k)) as [->|Hk]; rewrite fetchable_cons_None; auto.
Qed.

Lemma fetchable_all d x :
  Forall (λ it, is_Some it.2) d → x ∈ dict_keys d → x ∈ fetchable d.
Proof.
  induction 1 as [|[k' v] d [u Hu] _ IH]; [done|].
  cbn in Hu. subst v.
  change (dict_keys ((k', Some u) :: d)) with (k' :: dict_keys d).
  rewrite fetchable_cons_Some, !elem_of_cons.
  intros [->|H]; [by left|right; by apply IH].
Qed.

(** After a run in which every transfer and every delete succeeded the
    store holds what it held, plus the uploads, minus the deletes, plus
    the two generated documents: exactly the keys of the catalog, so
    that the next run finds the store in sync. *)
Lemma second_run_in_sync (R0 : dict) (S S2 : list string) :
  Forall (λ it, is_Some it.2) R0 →
  list_to_set S2 =@{gset string}
    ((list_to_set S ∪ list_to_set (filter (λ n, n ∉ S) (fetchable (protect R0))))
       ∖ files_to_delete (protect R0) S)
    ∪ {[ "index.html"; DATASET2_JSON_FILE ]} →
  list_to_set S2 =@{gset string} list_to_set (dict_keys (protect R0)).
Proof.
  intros Hall ->. apply set_eq. intros x. unfold files_to_delete.
  rewrite elem_of_union, !elem_of_difference, elem_of_union,
    !elem_of_list_to_set, list_elem_of_filter, elem_of_union,
    !elem_of_singleton.
  pose proof (dict_get_keys _ _ _ (protect_index R0)) as Hi.
  pose proof (dict_get_keys _ _ _ (protect_dataset2 R0)) as Hj.
  split.
  - intros [[[H|[_ H]] Hnd]|[->| ->]]; [|by apply fetchable_keys|done|done].
    destruct (decide (x ∈ dict_keys (protect R0))) as [|Hn]; [done|].
    exfalso. apply Hnd. by split.
  - intros Hx.
    destruct (decide (x = "index.html")) as [->|Hni]; [right; by left|].
    destruct (decide (x = DATASET2_JSON_FILE)) as [->|Hnj]; [right; by right|].
    left. split; [|tauto].
    destruct (decide (x ∈ S)) as [|HnS]; [by left|right]. split; [done|].
    unfold protect in Hx |- *. rewrite !dict_keys_set in Hx.
    do 2 (apply fetchable_set_None; [|done]).
    apply fetchable_all; [done|tauto].
Qed.

End Protect.

(** ** Strings: what [split] does *)

Example split_components : PyStr.split "a/bc//d" "/" = Ok ["a"; "bc"; EmptyString; "d"].
Proof. reflexivity. Qed.

Example split_no_overlap : PyStr.split "aaaxaa" "aa" = Ok [EmptyString; "ax"; EmptyString].
Proof. reflexivity. Qed.

Example split_no_separator : PyStr.split "abc" "/" = Ok ["abc"].
Proof. reflexivity. Qed.

Example basename_nested : basename "dataset/sub/a.txt" = "a.txt".
Proof. reflexivity. Qed.

(** X1: when no key repeats the prefix, the names are the keys without it. *)
Lemma get_s3_objects_strips (store : listing) (p : string) (rests : list string) :
  p ≠ EmptyString →
  non_marker_keys store = (λ r, p +:+ r) <$> rests →
  Forall (λ r, PyStr.occurs p r = false) rests →
  get_s3_objects store p = Ok rests.
Proof.
  intros Hp Hkeys Hocc. unfold get_s3_objects, paginate.
  destruct (get_s3_objects_pages_ok p store [] Hp) as (names & -> & HF).
  cbn. f_equal. rewrite Hkeys in HF. clear Hkeys.
  revert names HF. induction Hocc as [|r rests Hr _ IH]; intros names HF.
  - by apply Forall2_nil_inv_l in HF.
  - rewrite fmap_cons in HF.
    apply Forall2_cons_inv_l in HF as (name & names' & Hn & HF & ->).
    rewrite key_name_strips in Hn by done. injection Hn as <-.
    f_equal. by apply IH.
Qed.


(** With the default prefix of [get_s3_objects], the empty string, the
    first key that is not a folder marker makes the call raise. *)
Lemma get_s3_objects_empty_prefix (store : listing) :
  get_s3_objects store EmptyString
  = match non_marker_keys store with
    | [] => Ok []
    | _ :: _ => Err (ValueError "empty separator")
    end.
Proof.
  unfold get_s3_objects, paginate.
  assert (Hitems : ∀ items objects,
    get_s3_objects_items EmptyString items objects
    = match filter (λ key, is_marker key = false) items with
      | [] => Ok objects
      | _ :: _ => Err (ValueError "empty separator")
      end).
  { induction items as [|key items IH]; intros objects; [done|].
    cbn [get_s3_objects_items]. fold (is_marker key).
    destruct (is_marker key) eqn:Hm.
    - rewrite filter_cons_False by congruence. apply IH.
    - rewrite filter_cons_True by done. by rewrite key_name_empty_prefix. }
  generalize (@nil string) as objects.
  induction store as [|[contents] store IH]; intros objects; [done|].
  cbn [get_s3_objects_pages Contents]. unfold non_marker_keys, all_keys in *.
  rewrite fmap_cons, concat_cons, filter_app.
  destruct contents as [items|]; cbn [page_keys Contents default id].
  - rewrite Hitems.
    destruct (filter _ items) as [|key keys]; cbn [mbind result_bind app];
      [apply IH|done].
  - rewrite filter_nil. apply IH.
Qed.

(** ** What a whole run may add to the trace *)

Section Adds.

Context (P : event → Prop).

Lemma adds_ret {A} (a : A) : adds P (mret a).
Proof. intros w. exists []. by rewrite app_nil_r. Qed.

Lemma adds_raise {A} (e : exn) : adds P (raise (A := A) e).
Proof. intros w. exists []. by rewrite app_nil_r. Qed.

Lemma adds_lift {A} (r : result A) : adds P (lift r).
Proof. intros w. exists []. by rewrite app_nil_r. Qed.

Lemma adds_perform (e : event) : P e → adds P (perform e).
Proof. intros He w. exists [e]. split; [done|]. by constructor. Qed.

Lemma adds_os_path_exists (path : string) : adds P (os_path_exists path).
Proof. intros w. exists []. by rewrite app_nil_r. Qed.

Lemma adds_write_file (path : string) : P (FileWrite path) → adds P (write_file path).
Proof. intros He w. exists [FileWrite path]. split; [done|]. by constructor. Qed.

Lemma adds_bind {A B} (m : M A) (f : A → M B) :
  adds P m → (∀ a, adds P (f a)) → adds P (m ≫= f).
Proof.
  intros Hm Hf w. destruct (Hm w) as (e1 & Ht1 & HP1).
  unfold mbind, M_bind. destruct (m w) as [[a|e] w1]; cbn [snd] in Ht1.
  - destruct (Hf a w1) as (e2 & Ht2 & HP2).
    exists (e1 ++ e2). rewrite Ht2, Ht1, <- app_assoc. split; [done|].
    by apply Forall_app.
  - by exists e1.
Qed.

Lemma adds_for_each {A} (body : A → M unit) (l : list A) :
  (∀ x, adds P (body x)) → adds P (for_each body l).
Proof.
  intros Hbody. induction l as [|x l IH]; [apply adds_ret|].
  cbn [for_each]. apply adds_bind; [apply Hbody|by intros _].
Qed.

End Adds.

Ltac adds_step :=
  first
    [ apply adds_ret | apply adds_raise | apply adds_lift
    | apply adds_os_path_exists
    | apply adds_perform; intros ? ?; discriminate
    | apply adds_write_file; intros ? ?; discriminate
    | apply adds_bind; [|intros ?] ].

(** The upload loop sends no batch delete at all. *)
Lemma upload_files_spares (net : env) (R : dict) (S : list string)
    (p key : string) :
  adds (spares key) (upload_files_to_s3 net R S p).
Proof.
  apply adds_for_each. intros [filename [url|]]; [|apply adds_ret].
  unfold upload_item, requests_get, raise_for_status, s3_upload_fileobj, print.
  repeat (adds_step || match goal with
                       | |- adds _ (if ?b then _ else _) => destruct b
                       | |- adds _ (match ?o with Some _ => _ | None => _ end) =>
                           destruct o
                       end).
Qed.

(** The batch delete spares every key of the catalog. *)
Lemma remove_files_spares (net : env) (R : dict) (S : list string)
    (p name : string) :
  name ∈ dict_keys R →
  adds (spares (p +:+ name)) (remove_files_from_s3 net R S p).
Proof.
  intros Hname w.
  destruct (decide (files_to_delete R S = ∅)) as [He|He].
  - rewrite remove_files_none by done. eexists [_]. split; [done|].
    constructor; [|constructor]. intros ? ?. discriminate.
  - rewrite remove_files_some by done. eexists [_;_;_]. split; [done|].
    repeat constructor; try (intros ? ?; discriminate).
    intros keys deleted [= <- _].
    intros (f & Heq & Hf)%list_elem_of_fmap.
    apply str_app_inj_l in Heq as <-. apply elem_of_elements in Hf.
    unfold files_to_delete in Hf. apply elem_of_difference in Hf as [_ Hf].
    apply Hf. by apply elem_of_list_to_set.
Qed.

Lemma generate_index_html_spares (store : listing) (prefix key : string) :
  adds (spares key) (generate_index_html store prefix).
Proof.
  unfold generate_index_html, s3_put_object, print.
  destruct (Contents (list_objects_v2 store)); repeat adds_step.
Qed.

(** X9: a run of [sync_bucket] never asks the store to delete a key of the
    catalog it plans with; in particular not the index page and not the
    second dataset. *)
Lemma sync_bucket_spares (net : env) (remote_files : dict)
    (store store_after : listing) (s3_prefix name : string) :
  name ∈ dict_keys (protect remote_files) →
  adds (spares (s3_prefix +:+ name))
    (sync_bucket net remote_files store store_after s3_prefix).
Proof.
  intros Hname. unfold sync_bucket.
  apply adds_bind; [apply adds_lift|intros s3_files].
  apply adds_bind; [apply upload_files_spares|intros _].
  apply adds_bind; [by apply remove_files_spares|intros _].
  unfold get_dataset2_json, requests_get, raise_for_status, s3_upload_file, print.
  repeat (adds_step || match goal with
                       | |- adds _ (if ?b then _ else _) => destruct b
                       end).
  apply generate_index_html_spares.
Qed.

Example sync_bucket_run :
  run (sync_bucket all_ok catalog_ab
         [Page (Some ["dataset/"; "dataset/a.txt"; "dataset/old.txt"])]
         [Page (Some ["dataset/"; "dataset/a.txt"; "dataset/b.txt";
                      "dataset/usa_population.json"])]
         "dataset/")
  = (Ok (),
     [ Print "Skipping a.txt, already in S3.";
       HttpGet "b.txt" "https://remote/b.txt";
       Print "Uploading b.txt to S3...";
       S3UploadFileobj "dataset/b.txt";
       Print "Deleting obsolete files from S3...";
       S3DeleteObjects ["dataset/old.txt"] ["dataset/old.txt"];
       Print "Deleted 1 files.";
       Print "Uploading Dataset 2 JSON to S3...";
       HttpGet "usa_population.json" DATASET2_URL;
       FileWrite "data/dataset2/usa_population.json";
       Print "Dataset 2 JSON saved to usa_population.json";
       S3UploadFile "data/dataset2/usa_population.json" "dataset/usa_population.json";
       Print "Uploaded usa_population.json to S3 bucket rearc-quest-data-bhagath";
       Print "S3 Sync complete.";
       S3PutObject "dataset/index.html"
         (PyStr.join nl
            (index_header "dataset/"
             ++ [ index_entry "dataset/a.txt"; index_entry "dataset/b.txt";
                  index_entry "dataset/usa_population.json" ]
             ++ [index_footer]))
         "text/html";
       Print "index.html uploaded to s3://rearc-quest-data-bhagath/dataset/index.html";
       Print "Access it via: https://rearc-quest-data-bhagath.s3.ap-south-1.amazonaws.com/dataset/index.html" ]).
Proof. vm_compute. reflexivity. Qed.

(** ** Splitting at one character *)

Section SplitChar.

Context (c : ascii).

Local Abbreviation sep := (String c EmptyString).

Lemma prefix_char (a : ascii) (t : string) :
  String.prefix sep (String a t) = bool_decide (c = a).
Proof.
  cbn. destruct (ascii_dec c a) as [->|Hne].
  - rewrite str_prefix_nil. by rewrite bool_decide_true.
  - by rewrite bool_decide_false.
Qed.

Lemma split_char_cons (a : ascii) (t : string) :
  PyStr.split_go sep (String a t) 0
  = if bool_decide (c = a) then EmptyString :: PyStr.split_go sep t 0
    else PyStr.push_char a (PyStr.split_go sep t 0).
Proof. cbn [PyStr.split_go]. by rewrite prefix_char. Qed.

Lemma occurs_char_cons (a : ascii) (t : string) :
  PyStr.occurs sep (String a t) = bool_decide (c = a) || PyStr.occurs sep t.
Proof. cbn [PyStr.occurs]. rewrite prefix_char. by destruct (bool_decide _). Qed.

(** No piece contains the separator. *)
Lemma split_char_pieces (s : string) :
  Forall (λ piece, PyStr.occurs sep piece = false) (PyStr.split_go sep s 0).
Proof.
  induction s as [|a s IH]; [by repeat constructor|].
  rewrite split_char_cons. case_bool_decide as Hc.
  - constructor; [done|apply IH].
  - destruct (PyStr.split_go sep s 0) as [|piece pieces]; cbn.
    + repeat constructor. rewrite occurs_char_cons. by rewrite bool_decide_false.
    + apply Forall_cons in IH as [H1 H2]. constructor; [|done].
      rewrite occurs_char_cons, H1. by rewrite bool_decide_false.
Qed.

(** The last piece of a non-empty string that does not end with the
    separator is not empty. *)
Lemma split_char_last (s x : string) :
  s ≠ EmptyString → PyStr.endswith s sep = false →
  last (PyStr.split_go sep s 0) = Some x → x ≠ EmptyString.
Proof.
  induction s as [|a s IH]; [done|]. intros _ Hend.
  cbn [PyStr.endswith] in Hend.
  destruct (String.eqb (String a s) sep) eqn:Heq; [done|].
  apply String.eqb_neq in Heq.
  rewrite split_char_cons. pose proof (split_go_nonempty sep s 0) as Hne.
  case_bool_decide as Hc.
  - subst a. destruct s as [|a' s']; [done|].
    rewrite last_cons. destruct (last _) as [y|] eqn:Hy; [|by rewrite last_None in Hy].
    intros [= <-]. by apply IH.
  - destruct (PyStr.split_go sep s 0) as [|piece pieces] eqn:Hs; [done|].
    cbn [PyStr.push_char]. rewrite last_cons.
    destruct (last pieces) as [y|] eqn:Hy.
    + intros [= <-]. apply IH; [|done|by rewrite last_cons, Hy].
      intros ->. cbn in Hs. injection Hs as <- <-. done.
    + by intros [= <-].
Qed.

End SplitChar.


(** ** Occurrences *)

Lemma prefix_app_mono (sep s rest : string) :
  String.prefix sep s = true → String.prefix sep (s +:+ rest) = true.
Proof.
  intros [r ->]%str_prefix_inv.
  assert (Hassoc : ∀ a b d : string, (a +:+ b) +:+ d = a +:+ (b +:+ d)).
  { induction a as [|x a IH]; intros b d; [done|].
    by rewrite !str_app_cons, IH. }
  rewrite Hassoc. apply str_prefix_app.
Qed.

Lemma occurs_app_l (sep s rest : string) :
  PyStr.occurs sep s = true → PyStr.occurs sep (s +:+ rest) = true.
Proof.
  induction s as [|a s IH]; cbn [PyStr.occurs].
  - destruct (String.prefix sep EmptyString) eqn:Hp; [|done].
    intros _. destruct sep; [|done]. rewrite str_app_nil_l.
    destruct rest; cbn [PyStr.occurs]; by rewrite str_prefix_nil.
  - destruct (String.prefix sep (String a s)) eqn:Hp.
    + intros _. rewrite str_app_cons. cbn [PyStr.occurs].
      rewrite <- str_app_cons. by rewrite prefix_app_mono.
    + intros H. rewrite str_app_cons. cbn [PyStr.occurs].
      rewrite IH by done. by destruct (String.prefix sep (String a (s +:+ rest))).
Qed.

(** A string occurs only in strings that contain what it contains. *)
Lemma occurs_trans (sep p s : string) :
  PyStr.occurs sep p = true → PyStr.occurs p s = true →
  PyStr.occurs sep s = true.
Proof.
  intros Hp. induction s as [|a s IH]; cbn [PyStr.occurs].
  - destruct (String.prefix p EmptyString) eqn:Hpre; [|done].
    intros _. apply str_prefix_inv in Hpre as [r Hr].
    destruct p; [|done]. exact Hp.
  - destruct (String.prefix p (String a s)) eqn:Hpre.
    + intros _. apply str_prefix_inv in Hpre as [r Hr].
      change (PyStr.occurs sep (String a s) = true). rewrite Hr.
      by apply occurs_app_l.
    + intros H. rewrite IH by done. by destruct (String.prefix sep (String a s)).
Qed.

Lemma occurs_nonempty (sep s : string) :
  sep ≠ EmptyString → PyStr.occurs sep s = true → s ≠ EmptyString.
Proof. intros Hsep H ->. cbn in H. by destruct sep. Qed.

(** ** The remote catalog: get_dataset1_info *)

Lemma dict_set_Forall (P : string * option string → Prop) (d : dict)
    (k : string) (v : option string) :
  Forall P d → P (k, v) → Forall P (dict_set d k v).
Proof.
  intros Hd Hk. induction Hd as [|[k' v'] d Hx Hd IH]; cbn [dict_set].
  - by repeat constructor.
  - destruct (decide (k' = k)) as [->|Hne]; by constructor.
Qed.

(** The file name of a kept link: [split] and [[-1]] do not raise, and
    the name is not empty and has no slash. *)
Lemma basename_kept (h : string) :
  kept_link h = true →
  (parts ← PyStr.split h "/"; PyStr.index_last parts) = Ok (basename h)
  ∧ basename h ≠ EmptyString
  ∧ PyStr.occurs "/" (basename h) = false.
Proof.
  unfold kept_link. intros [Ht Hend]%andb_true_iff.
  apply negb_true_iff in Hend.
  assert (Hh : h ≠ EmptyString) by (by destruct h).
  change (PyStr.split h "/") with (Ok (PyStr.split_go "/" h 0)).
  cbn [mbind result_bind]. unfold PyStr.index_last, basename.
  pose proof (split_go_nonempty "/" h 0) as Hne.
  destruct (last (PyStr.split_go "/" h 0)) as [x|] eqn:Hlast.
  2: { by apply last_None in Hlast. }
  cbn [default]. split; [done|]. split.
  - by eapply split_char_last.
  - pose proof (split_char_pieces "/" h) as Hall.
    apply last_Some in Hlast as [l' Hl']. rewrite Hl' in Hall.
    rewrite Forall_app, Forall_singleton in Hall. by destruct Hall as [_ Hall].
Qed.

Section Dataset1Facts.

Context (urljoin : string → string → string).

Lemma dataset1_links_spec (hrefs : list (option string)) (acc : dict) :
  ∃ d,
    dataset1_links urljoin hrefs acc = Ok d
    ∧ (dict_wf acc → dict_wf d)
    ∧ (∀ P : string * option string → Prop,
         Forall P acc →
         (∀ h, kept_link h = true → P (basename h, Some (urljoin DATASET1_URL h))) →
         Forall P d)
    ∧ ∀ name,
        dict_get d name
        = match last_link hrefs name with
          | Some h => Some (Some (urljoin DATASET1_URL h))
          | None => dict_get acc name
          end.
Proof.
  revert acc. induction hrefs as [|href hrefs IH]; intros acc.
  - exists acc. cbn. by repeat split.
  - cbn [dataset1_links last_link].
    destruct href as [h|]; [|].
    2: { destruct (IH acc) as (d & Hd & Hwf & HP & Hget). exists d.
         repeat split; try done. intros name. rewrite Hget.
         by destruct (last_link hrefs name). }
    fold (kept_link h). destruct (kept_link h) eqn:Hk.
    + destruct (basename_kept h Hk) as (Hname & _ & _).
      change (parts ← PyStr.split h "/"; filename ← PyStr.index_last parts;
              dataset1_links urljoin hrefs
                (dict_set acc filename (Some (urljoin DATASET1_URL h))))
        with ((parts ← PyStr.split h "/"; PyStr.index_last parts)
              ≫= λ filename,
                dataset1_links urljoin hrefs
                  (dict_set acc filename (Some (urljoin DATASET1_URL h)))).
      rewrite Hname. cbn [mbind result_bind].
      destruct (IH (dict_set acc (basename h) (Some (urljoin DATASET1_URL h))))
        as (d & Hd & Hwf & HP & Hget).
      exists d. split; [done|]. split; [|split].
      * intros H. by apply Hwf, dict_set_wf.
      * intros P Hacc Hkept. apply HP; [|done].
        apply dict_set_Forall; [done|by apply Hkept].
      * intros name. rewrite Hget.
        destruct (last_link hrefs name); [done|]. cbn [andb].
        case_bool_decide as Hn.
        -- subst name. apply dict_get_set_eq.
        -- by apply dict_get_set_ne.
    + destruct (IH acc) as (d & Hd & Hwf & HP & Hget). exists d.
      repeat split; try done. intros name. rewrite Hget.
      by destruct (last_link hrefs name).
Qed.

End Dataset1Facts.

(** X14: [get_dataset1_info] makes one GET, of the listing.  If its
    status is not a success the function raises [HTTPError] for that URL;
    otherwise it returns a dict with distinct keys, which stay distinct
    when [sync_bucket] adds its two entries, in which every entry has a
    URL and every name is non-empty and has no slash. *)
Theorem get_dataset1_info_catalog (urljoin : string → string → string)
    (net : env) (hrefs : list (option string)) (w : world) :
  let w' := emit (HttpGet EmptyString DATASET1_URL) w in
  if http_ok net DATASET1_URL then
    ∃ d,
      get_dataset1_info urljoin net hrefs w = (Ok d, w')
      ∧ dict_wf d ∧ dict_wf (protect d)
      ∧ Forall (λ it, is_Some it.2 ∧ it.1 ≠ EmptyString
                      ∧ PyStr.occurs "/" it.1 = false) d
  else get_dataset1_info urljoin net hrefs w = (Err (HTTPError DATASET1_URL), w').
Proof.
  intros w'. unfold get_dataset1_info. run_M.
  destruct (http_ok net DATASET1_URL); run_M; [|done].
  destruct (dataset1_links_spec urljoin hrefs []) as (d & -> & Hwf & HP & _).
  exists d. split; [done|].
  assert (Hd : dict_wf d) by (apply Hwf; constructor).
  split; [done|]. split; [by apply protect_wf|].
  apply HP; [constructor|]. intros h Hk.
  destruct (basename_kept h Hk) as (_ & Hne & Hocc). cbn. eauto.
Qed.

(** X15: the dict built from the links of the page maps a file name to
    the URL of the last kept link with that file name, and has no entry
    for a name without such a link: links without [href], empty links and
    links that end in a slash add nothing. *)
Theorem dataset1_links_last_wins (urljoin : string → string → string)
    (hrefs : list (option string)) :
  ∃ d,
    dataset1_links urljoin hrefs [] = Ok d
    ∧ ∀ name,
        dict_get d name
        = (λ h, Some (urljoin DATASET1_URL h)) <$> last_link hrefs name.
Proof.
  destruct (dataset1_links_spec urljoin hrefs []) as (d & Hd & _ & _ & Hget).
  exists d. split; [done|]. intros name. rewrite Hget.
  by destruct (last_link hrefs name).
Qed.

Example dataset1_links_sample :
  dataset1_links urljoin_concat hrefs_sample []
  = Ok [ ("pr.data.0.Current",
          Some (urljoin_concat DATASET1_URL "/pub/time.series/pr/pr.data.0.Current"));
         ("pr.txt", Some (urljoin_concat DATASET1_URL "other/pr.txt")) ].
Proof. reflexivity. Qed.

(** X16: a name of the remote catalog, uploaded under a prefix that
    contains a slash, comes back from the listing of the store as the same
    name. *)
Theorem dataset1_names_round_trip (urljoin : string → string → string)
    (hrefs : list (option string)) (d : dict) (p name : string) :
  dataset1_links urljoin hrefs [] = Ok d →
  name ∈ dict_keys d →
  PyStr.occurs "/" p = true →
  key_name p (p +:+ name) = Ok name
  ∧ get_s3_objects [Page (Some [p +:+ name])] p = Ok [name].
Proof.
  intros Hd Hname Hp.
  destruct (dataset1_links_spec urljoin hrefs []) as (d' & Hd' & _ & HP & _).
  rewrite Hd in Hd'. injection Hd' as <-.
  assert (Hall : Forall (λ it, it.1 ≠ EmptyString
                               ∧ PyStr.occurs "/" it.1 = false) d).
  { apply HP; [constructor|]. intros h Hk.
    destruct (basename_kept h Hk) as (_ & Hne & Hocc). by cbn. }
  apply list_elem_of_fmap in Hname as ([k v] & -> & Hin).
  rewrite Forall_forall in Hall. destruct (Hall _ Hin) as [Hne Hocc].
  cbn [fst] in *.
  assert (Hpne : p ≠ EmptyString) by (intros ->; done).
  assert (Hno : PyStr.occurs p k = false).
  { destruct (PyStr.occurs p k) eqn:H; [|done].
    by rewrite (occurs_trans "/" p k Hp H) in Hocc. }
  assert (Hkey : key_name p (p +:+ k) = Ok k) by (by apply key_name_strips).
  split; [done|].
  unfold get_s3_objects, paginate. cbn [get_s3_objects_pages Contents].
  cbn [get_s3_objects_items].
  assert (Hm : PyStr.endswith (p +:+ k) "/" = false).
  { assert (Hlast : ∀ s t, t ≠ EmptyString → PyStr.occurs "/" t = false →
                      PyStr.endswith (s +:+ t) "/" = false).
    { intros s t Ht Hot. induction s as [|a s IH].
      - rewrite str_app_nil_l. clear -Ht Hot.
        induction t as [|b t IHt]; [done|].
        rewrite (occurs_char_cons "/" b t) in Hot.
        apply orb_false_iff in Hot as [Hb Hot].
        cbn [PyStr.endswith].
        destruct t as [|b' t'].
        + cbn. apply bool_decide_eq_false in Hb.
          destruct (Ascii.eqb_spec b "/"); [by subst|done].
        + replace (String.eqb (String b (String b' t')) "/") with false.
          2: { symmetry. apply String.eqb_neq. done. }
          by apply IHt.
      - rewrite str_app_cons. cbn [PyStr.endswith]. rewrite IH.
        replace (String.eqb (String a (s +:+ t)) "/") with false; [done|].
        symmetry. apply String.eqb_neq. intros [= -> Hnil].
        destruct s; [|done]. rewrite str_app_nil_l in Hnil. done. }
    by apply Hlast. }
  rewrite Hm, Hkey. reflexivity.
Qed.

Lemma dataset1_names_round_trip_witness :
  dataset1_links urljoin_concat hrefs_sample []
  = Ok [ ("pr.data.0.Current",
          Some (urljoin_concat DATASET1_URL "/pub/time.series/pr/pr.data.0.Current"));
         ("pr.txt", Some (urljoin_concat DATASET1_URL "other/pr.txt")) ]
  ∧ "pr.txt" ∈ dict_keys
       [ ("pr.data.0.Current",
          Some (urljoin_concat DATASET1_URL "/pub/time.series/pr/pr.data.0.Current"));
         ("pr.txt", Some (urljoin_concat DATASET1_URL "other/pr.txt")) ]
  ∧ PyStr.occurs "/" "dataset/" = true
  ∧ key_name "dataset/" ("dataset/" +:+ "pr.txt") = Ok "pr.txt"
  ∧ get_s3_objects [Page (Some ["dataset/" +:+ "pr.txt"])] "dataset/" = Ok ["pr.txt"].
Proof.
  assert (Hin : "pr.txt" ∈ dict_keys
       [ ("pr.data.0.Current",
          Some (urljoin_concat DATASET1_URL "/pub/time.series/pr/pr.data.0.Current"));
         ("pr.txt", Some (urljoin_concat DATASET1_URL "other/pr.txt")) ]).
  { cbn. apply elem_of_cons. right. apply elem_of_cons. by left. }
  split; [reflexivity|]. split; [exact Hin|]. split; [reflexivity|].
  exact (dataset1_names_round_trip urljoin_concat hrefs_sample _ "dataset/" "pr.txt"
           eq_refl Hin eq_refl).
Defined.

(** ** create_s3_bucket *)

Lemma py_any_filter_eq (buckets : list string) (bucket_name : string) :
  py_any (filter (λ name, name = bucket_name) buckets)
  = bool_decide (bucket_name ∈ buckets ∧ bucket_name ≠ EmptyString).
Proof.
  induction buckets as [|b buckets IH].
  - cbn. symmetry. apply bool_decide_eq_false. intros [H _].
    by apply elem_of_nil in H.
  - destruct (decide (b = bucket_name)) as [->|Hne].
    + rewrite filter_cons_True by done. unfold py_any in *. cbn [existsb].
      destruct bucket_name as [|a s]; cbn [truthy orb].
      * rewrite IH. apply bool_decide_ext. rewrite elem_of_cons. tauto.
      * symmetry. apply bool_decide_eq_true. split; [|done].
        apply elem_of_cons. by left.
    + rewrite filter_cons_False by done. rewrite IH.
      apply bool_decide_ext. rewrite elem_of_cons. split.
      * intros [H1 H2]. split; [by right|done].
      * intros [[H|H] H2]; [by subst|done].
Qed.

(** X17: [create_s3_bucket] asks for the bucket to be created, in the
    configured region, exactly when its name is not among the listed
    buckets; for a listed name it only prints.  (Of an empty name the
    test [any] is never true.) *)
Theorem create_s3_bucket_decision (buckets : list string) (bucket_name : string) :
  create_s3_bucket buckets bucket_name
  = if bool_decide (bucket_name ∈ buckets ∧ bucket_name ≠ EmptyString)
    then [BucketPrint ("Bucket " +:+ bucket_name +:+ " already exists")]
    else [ BucketPrint ("Creating bucket " +:+ bucket_name);
           S3CreateBucket bucket_name AWS_REGION ].
Proof. unfold create_s3_bucket. by rewrite py_any_filter_eq. Qed.

(** ** What the upload loop may do *)

Lemma adds_for_each_in (P : event → Prop) {A} (body : A → M unit) (l : list A) :
  (∀ x, x ∈ l → adds P (body x)) → adds P (for_each body l).
Proof.
  induction l as [|x l IH]; intros Hbody; [apply adds_ret|].
  cbn [for_each]. apply adds_bind.
  - apply Hbody, elem_of_cons. by left.
  - intros _. apply IH. intros y Hy. apply Hbody, elem_of_cons. by right.
Qed.

Lemma adds_mono (P Q : event → Prop) {A} (m : M A) :
  (∀ e, P e → Q e) → adds P m → adds Q m.
Proof.
  intros HPQ Hm w. destruct (Hm w) as (evs & Ht & HP).
  exists evs. split; [done|]. by eapply Forall_impl.
Qed.

Lemma upload_files_allowed (net : env) (R : dict) (S : list string) (p : string) :
  adds (upload_event R S p) (upload_files_to_s3 net R S p).
Proof.
  apply adds_for_each_in. intros [filename [url|]] Hin; [|apply adds_ret].
  unfold upload_item, requests_get, raise_for_status, s3_upload_fileobj, print.
  repeat first
    [ apply adds_ret | apply adds_raise | apply adds_os_path_exists
    | apply adds_bind; [|intros ?]
    | apply adds_perform; first [exact I | exact Hin]
    | match goal with
      | |- adds _ (if bool_decide (filename ∉ S) then _ else _) =>
          destruct (decide (filename ∉ S)) as [HS|HS];
          [rewrite (bool_decide_true _ HS)|rewrite (bool_decide_false _ HS)]
      | |- adds _ (if bool_decide (filename ∈ files_to_download) && _ then _ else _) =>
          destruct (decide (filename ∈ files_to_download)) as [Hd|Hd];
          [rewrite (bool_decide_true _ Hd)|rewrite (bool_decide_false _ Hd)];
          cbn [andb]
      | |- adds _ (if ?b then _ else _) => destruct b
      | |- adds _ (match ?o with Some _ => _ | None => _ end) => destruct o
      end ].
  all: try (apply adds_perform; cbn; by eauto).
  all: apply adds_write_file; cbn.
  all: apply list_elem_of_singleton in Hd; by subst filename.
Qed.


(** X4: whatever the network answers, the upload loop only fetches the
    URL that the catalog gives for a name, only uploads, under the prefix,
    names that have a URL and are not in the store, only writes the local
    copy of [pr.data.0.Current], and prints; it never deletes and never
    puts an object. *)
Theorem upload_files_only (net : env) (R : dict) (S : list string) (p : string) :
  adds (upload_event R S p) (upload_files_to_s3 net R S p).
Proof. apply upload_files_allowed. Qed.

Lemma upload_event_quiet (R : dict) (S : list string) (p : string)
    (evs : list event) :
  Forall (upload_event R S p) evs →
  put_objects evs = [] ∧ delete_batches evs = [].
Proof.
  induction 1 as [|e evs He _ [IH1 IH2]]; [done|].
  destruct e; cbn in He |- *; try done.
Qed.

Lemma file_writes_app t1 t2 :
  file_writes (t1 ++ t2) = file_writes t1 ++ file_writes t2.
Proof. apply omap_app. Qed.

(** One turn of the loop leaves the local directory as it is, or writes
    the local copy, which was not there. *)
Lemma upload_item_local (net : env) (S : list string) (p filename : string)
    (loc : option string) (w : world) :
  let w' := (upload_item net S p (filename, loc) w).2 in
  ∃ evs,
    trace w' = trace w ++ evs
    ∧ ((file_writes evs = [] ∧ local_files w' = local_files w)
       ∨ (file_writes evs = [local_copy] ∧ (local_copy ∉ local_files w)
          ∧ local_files w' = local_copy :: local_files w)).
Proof.
  destruct loc as [url|]; run_M.
  2: { close_events 0. by left. }
  assert (Hcopy : filename ∈ files_to_download →
                  os_path_join download_dir filename = local_copy).
  { intros H. apply list_elem_of_singleton in H. by subst filename. }
  destruct (decide (filename ∈ files_to_download)) as [Hd|Hd].
  2: { rewrite (bool_decide_false _ Hd).
       destruct (bool_decide (filename ∉ S)); run_M.
       - destruct (http_ok net url); run_M; [|close_events 1; by left].
         destruct (upload_ok net (p +:+ filename)); run_M;
           [close_events 3|close_events 2]; by left.
       - close_events 1. by left. }
  rewrite (bool_decide_true _ Hd), (Hcopy Hd). cbn [andb].
  destruct (bool_decide (filename ∉ S)); run_M.
  - destruct (http_ok net url); run_M; [|close_events 1; by left].
    destruct (upload_ok net (p +:+ filename)); run_M; [|close_events 2; by left].
    destruct (decide (local_copy ∈ local_files w)) as [Hl|Hl].
    + rewrite (bool_decide_true _ Hl). run_M. close_events 3. by left.
    + rewrite (bool_decide_false _ Hl). run_M. close_events 5. by right.
  - destruct (decide (local_copy ∈ local_files w)) as [Hl|Hl].
    + rewrite (bool_decide_true _ Hl). run_M. close_events 1. by left.
    + rewrite (bool_decide_false _ Hl). run_M.
      destruct (http_ok net url); run_M; [close_events 4; by right|].
      close_events 3. by left.
Qed.

(** X5: in one run of the upload loop the local copy is written at most
    once, and only when it was not in the local directory; no other
    local file is written and none is removed. *)
Theorem local_copy_written_once (net : env) (R : dict) (S : list string)
    (p : string) (w : world) :
  let w' := (upload_files_to_s3 net R S p w).2 in
  ∃ evs,
    trace w' = trace w ++ evs
    ∧ ((file_writes evs = [] ∧ local_files w' = local_files w)
       ∨ (file_writes evs = [local_copy] ∧ (local_copy ∉ local_files w)
          ∧ local_files w' = local_copy :: local_files w)).
Proof.
  unfold upload_files_to_s3. revert w.
  induction R as [|[filename loc] R IH]; intros w; cbn zeta.
  - exists []. rewrite app_nil_r. split; [done|]. by left.
  - rewrite for_each_cons.
    destruct (upload_item_local net S p filename loc w) as (e1 & Ht1 & H1).
    destruct (upload_item net S p (filename, loc) w) as [[[]|e] w1];
      cbn [snd] in Ht1, H1; [|by exists e1].
    destruct (IH w1) as (e2 & Ht2 & H2). cbn zeta in Ht2, H2.
    exists (e1 ++ e2). rewrite Ht2, Ht1, <- app_assoc. split; [done|].
    rewrite file_writes_app.
    destruct H1 as [[Hw1 Hl1]|(Hw1 & Hn1 & Hl1)],
             H2 as [[Hw2 Hl2]|(Hw2 & Hn2 & Hl2)];
      rewrite Hw1, Hw2, Hl2.
    + left. by rewrite Hl1.
    + right. rewrite Hl1 in Hn2 |- *. by rewrite app_nil_l.
    + right. rewrite Hl1, app_nil_r. done.
    + exfalso. apply Hn2. rewrite Hl1. apply elem_of_cons. by left.
Qed.

(** ** What the batch delete may do *)

(** X6: [remove_files_from_s3] never raises, whatever the store answers.
    It sends at most one batch, in which no key is repeated (even when a
    name is listed twice), and every key is the prefix followed by a name
    of the store that is not a key of the catalog; it fetches, uploads,
    puts and writes nothing. *)
Theorem remove_files_batch (net : env) (R : dict) (S : list string)
    (p : string) (w : world) :
  ∃ evs,
    remove_files_from_s3 net R S p w
    = (Ok (), World (trace w ++ evs) (local_files w))
    ∧ length (delete_batches evs) ≤ 1
    ∧ NoDup (delete_requests evs)
    ∧ (∀ key, key ∈ delete_requests evs →
         ∃ name, key = p +:+ name ∧ name ∈ S ∧ (name ∉ dict_keys R))
    ∧ fetched_names evs = [] ∧ uploaded_keys evs = []
    ∧ put_objects evs = [] ∧ file_writes evs = [].
Proof.
  destruct (decide (files_to_delete R S = ∅)) as [He|He].
  - rewrite remove_files_none by done. eexists [_]. split; [done|].
    cbn. repeat split; try done; [lia|constructor|].
    intros key H. by apply elem_of_nil in H.
  - rewrite remove_files_some by done. eexists [_;_;_]. split; [done|].
    unfold delete_requests. cbn. rewrite app_nil_r.
    repeat split; try done.
    + apply NoDup_fmap_2_strong; [|apply NoDup_elements].
      intros x y _ _ Heq. by apply str_app_inj_l in Heq.
    + intros key (name & -> & Hn)%list_elem_of_fmap. exists name.
      apply elem_of_elements in Hn. unfold files_to_delete in Hn.
      apply elem_of_difference in Hn as [H1 H2].
      rewrite elem_of_list_to_set in H1, H2. done.
Qed.

(** ** What the index generation may do *)

Lemma generate_index_html_run (store : listing) (prefix : string) (w : world) :
  ∃ evs,
    generate_index_html store prefix w
    = (Ok (), World (trace w ++ evs) (local_files w))
    ∧ Forall (publish_event prefix) evs
    ∧ length (put_objects evs) ≤ 1.
Proof.
  unfold generate_index_html.
  destruct (Contents (list_objects_v2 store)) as [contents|].
  - run_M. rewrite index_lines_spec. cbn [trace local_files].
    eexists [_;_;_]. rewrite <- !app_assoc. split; [done|].
    split; [|cbn; lia]. by repeat constructor.
  - eexists [_]. split; [done|]. split; [|cbn; lia]. by repeat constructor.
Qed.

(** X8: [generate_index_html] never raises, whatever the keys are; it
    puts at most one object, under [prefix + "index.html"] with content
    type [text/html], and otherwise only prints. *)
Theorem generate_index_html_total (store : listing) (prefix : string) (w : world) :
  ∃ evs,
    generate_index_html store prefix w
    = (Ok (), World (trace w ++ evs) (local_files w))
    ∧ Forall (publish_event prefix) evs
    ∧ length (put_objects evs) ≤ 1.
Proof. apply generate_index_html_run. Qed.

(** ** The store listing and the pages *)

Lemma get_s3_objects_items_app (p : string) (items1 items2 objects : list string) :
  get_s3_objects_items p (items1 ++ items2) objects
  = objects' ← get_s3_objects_items p items1 objects;
    get_s3_objects_items p items2 objects'.
Proof.
  revert objects. induction items1 as [|key items1 IH]; intros objects; [done|].
  rewrite <- app_comm_cons. cbn [get_s3_objects_items].
  destruct (PyStr.endswith key "/"); [apply IH|].
  destruct (key_name p key) as [name|e]; cbn [mbind result_bind]; [apply IH|done].
Qed.

Lemma get_s3_objects_pages_items (p : string) (pages : list page)
    (objects : list string) :
  get_s3_objects_pages p pages objects
  = get_s3_objects_items p (all_keys pages) objects.
Proof.
  revert objects. induction pages as [|[contents] pages IH]; intros objects; [done|].
  cbn [get_s3_objects_pages Contents]. unfold all_keys in *.
  rewrite fmap_cons, concat_cons, get_s3_objects_items_app.
  destruct contents as [items|]; cbn [page_keys Contents default id].
  - destruct (get_s3_objects_items p items objects); cbn [mbind result_bind];
      [apply IH|done].
  - cbn [get_s3_objects_items mbind result_bind]. apply IH.
Qed.

(** X3: the result of [get_s3_objects], a list of names or an exception,
    depends only on the keys of the listing in order, not on how they are
    cut into pages: pages without ['Contents'] and page boundaries make
    no difference. *)
Theorem get_s3_objects_page_independent (store1 store2 : listing) (p : string) :
  all_keys store1 = all_keys store2 →
  get_s3_objects store1 p = get_s3_objects store2 p.
Proof.
  intros H. unfold get_s3_objects, paginate.
  by rewrite !get_s3_objects_pages_items, H.
Qed.

Lemma get_s3_objects_page_independent_witness :
  all_keys store_3x2
  = all_keys [ Page None;
               Page (Some ["dataset/a.txt"; "dataset/b.txt"; "dataset/c.txt";
                           "dataset/d.txt"; "dataset/e.txt"; "dataset/f.txt"]) ]
  ∧ get_s3_objects store_3x2 "dataset/"
    = get_s3_objects
        [ Page None;
          Page (Some ["dataset/a.txt"; "dataset/b.txt"; "dataset/c.txt";
                      "dataset/d.txt"; "dataset/e.txt"; "dataset/f.txt"]) ]
        "dataset/".
Proof.
  split; [reflexivity|].
  apply (get_s3_objects_page_independent store_3x2). reflexivity.
Defined.


(** ** The catalog with its protected entries *)

Lemma dict_get_elem (d : dict) (k : string) (v : option string) :
  dict_wf d → (k, v) ∈ d → dict_get d k = Some v.
Proof.
  unfold dict_wf. induction d as [|[k' v'] d IH]; intros Hwf Hin.
  - by apply elem_of_nil in Hin.
  - cbn in Hwf. apply NoDup_cons in Hwf as [Hnotin Hwf].
    apply elem_of_cons in Hin as [[= <- <-]|Hin]; cbn [dict_get].
    + by rewrite decide_True.
    + rewrite decide_False; [by apply IH|].
      intros ->. apply Hnotin. apply list_elem_of_fmap. by exists (k, v).
Qed.

(** X12: the catalog [sync_bucket] plans with has no URL for
    [index.html] and for [usa_population.json], also when the remote
    listing has files of these names, and holds every other entry of the
    remote listing unchanged. *)
Theorem protect_lookup (R : dict) (name : string) :
  dict_get (protect R) name
  = if bool_decide (name = "index.html" ∨ name = DATASET2_JSON_FILE)
    then Some None else dict_get R name.
Proof.
  destruct (decide (name = DATASET2_JSON_FILE)) as [->|Hj].
  { rewrite bool_decide_true by (by right). apply protect_dataset2. }
  destruct (decide (name = "index.html")) as [->|Hi].
  { rewrite bool_decide_true by (by left). apply protect_index. }
  rewrite bool_decide_false by tauto.
  unfold protect. by rewrite !dict_get_set_ne.
Qed.

(** X13: in a run of the upload loop on the catalog of [sync_bucket],
    nothing is fetched for [index.html] or [usa_population.json] and
    neither key is uploaded, even if the remote listing offers files of
    these names. *)
Theorem upload_skips_protected (net : env) (R : dict) (S : list string)
    (p : string) :
  dict_wf R →
  adds (λ e, ∀ name, name = "index.html" ∨ name = DATASET2_JSON_FILE →
             (∀ url, e ≠ HttpGet name url) ∧ e ≠ S3UploadFileobj (p +:+ name))
    (upload_files_to_s3 net (protect R) S p).
Proof.
  intros Hwf. eapply adds_mono; [|apply upload_files_allowed].
  assert (Hnone : ∀ name url, name = "index.html" ∨ name = DATASET2_JSON_FILE →
                    (name, Some url) ∉ protect R).
  { intros name url Hname Hin.
    apply dict_get_elem in Hin; [|by apply protect_wf].
    assert (dict_get (protect R) name = Some None) as Hget.
    { destruct Hname as [-> | ->]; [apply protect_index|apply protect_dataset2]. }
    congruence. }
  intros e He name Hname. split.
  - intros url ->. cbn in He. by eapply Hnone.
  - intros ->. cbn in He. destruct He as (name' & url & Heq & Hin & _).
    apply str_app_inj_l in Heq as <-. by eapply Hnone.
Qed.

Lemma upload_skips_protected_witness :
  dict_wf [("index.html", Some "https://remote/index.html")]
  ∧ adds (λ e, ∀ name, name = "index.html" ∨ name = DATASET2_JSON_FILE →
               (∀ url, e ≠ HttpGet name url)
               ∧ e ≠ S3UploadFileobj ("dataset/" +:+ name))
      (upload_files_to_s3 all_ok
         (protect [("index.html", Some "https://remote/index.html")]) [] "dataset/").
Proof.
  assert (Hwf : dict_wf [("index.html", Some "https://remote/index.html")]).
  { unfold dict_wf. cbn. apply NoDup_singleton. }
  split; [exact Hwf|].
  exact (upload_skips_protected all_ok _ [] "dataset/" Hwf).
Defined.

(** ** Whole runs of sync_bucket *)

Lemma bind_Ok_inv {A B} (m : M A) (f : A → M B) (w w' : world) (b : B) :
  (m ≫= f) w = (Ok b, w') →
  ∃ a w1, m w = (Ok a, w1) ∧ f a w1 = (Ok b, w').
Proof.
  unfold mbind, M_bind. destruct (m w) as [[a|e] w1]; [|done].
  intros H. by exists a, w1.
Qed.

(** X2: with the empty prefix, which is the default of [get_s3_objects],
    a store that holds any object makes the listing raise [ValueError].
    A run of [sync_bucket] with that prefix does one thing, the GET of
    the remote listing, and raises: [ValueError] when that GET has a
    success status, [HTTPError] when it has not.  Nothing is uploaded,
    deleted, written or put. *)
Theorem sync_bucket_empty_prefix_fatal (urljoin : string → string → string)
    (net : env) (hrefs : list (option string)) (store store_after : listing)
    (w : world) :
  non_marker_keys store ≠ [] →
  get_s3_objects store EmptyString = Err (ValueError "empty separator")
  ∧ sync_bucket_from_remote urljoin net hrefs store store_after EmptyString w
    = (if http_ok net DATASET1_URL
       then Err (ValueError "empty separator")
       else Err (HTTPError DATASET1_URL),
       emit (HttpGet EmptyString DATASET1_URL) w).
Proof.
  intros Hne.
  assert (H : get_s3_objects store EmptyString = Err (ValueError "empty separator")).
  { rewrite get_s3_objects_empty_prefix. by destruct (non_marker_keys store). }
  split; [done|]. unfold sync_bucket_from_remote, get_dataset1_info. run_M.
  destruct (http_ok net DATASET1_URL); run_M; [|done].
  destruct (dataset1_links_spec urljoin hrefs []) as (d & -> & _).
  unfold sync_bucket. rewrite H. reflexivity.
Qed.

Lemma sync_bucket_empty_prefix_fatal_witness :
  non_marker_keys [Page (Some ["a.txt"])] ≠ []
  ∧ get_s3_objects [Page (Some ["a.txt"])] EmptyString
    = Err (ValueError "empty separator")
  ∧ sync_bucket_from_remote urljoin_concat all_ok hrefs_sample
      [Page (Some ["a.txt"])] [] EmptyString w0
    = (if http_ok all_ok DATASET1_URL
       then Err (ValueError "empty separator")
       else Err (HTTPError DATASET1_URL),
       emit (HttpGet EmptyString DATASET1_URL) w0).
Proof.
  assert (Hne : non_marker_keys [Page (Some ["a.txt"])] ≠ []) by discriminate.
  split; [exact Hne|].
  exact (sync_bucket_empty_prefix_fatal urljoin_concat all_ok hrefs_sample
           [Page (Some ["a.txt"])] [] w0 Hne).
Defined.

(** X10: when the upload loop raises, [sync_bucket] raises the same
    exception at once: nothing is deleted, the second dataset is not
    fetched and no index is published. *)
Theorem sync_bucket_upload_failure (net : env) (remote_files : dict)
    (store store_after : listing) (s3_prefix : string) (s3_files : list string)
    (w w1 : world) (e : exn) :
  get_s3_objects store s3_prefix = Ok s3_files →
  upload_files_to_s3 net (protect remote_files) s3_files s3_prefix w = (Err e, w1) →
  sync_bucket net remote_files store store_after s3_prefix w = (Err e, w1)
  ∧ delete_batches (trace w1) = delete_batches (trace w)
  ∧ put_objects (trace w1) = put_objects (trace w)
  ∧ (∀ path key, S3UploadFile path key ∈ trace w1 →
                 S3UploadFile path key ∈ trace w).
Proof.
  intros Hlist Hup. split.
  { unfold sync_bucket. rewrite Hlist. unfold lift, mbind, M_bind at 1.
    unfold mbind, M_bind at 1. by rewrite Hup. }
  destruct (upload_files_allowed net (protect remote_files) s3_files s3_prefix w)
    as (evs & Ht & Hall).
  rewrite Hup in Ht. cbn [snd] in Ht. rewrite Ht.
  destruct (upload_event_quiet _ _ _ _ Hall) as [Hput Hdel].
  rewrite delete_batches_app, put_objects_app, Hput, Hdel, !app_nil_r.
  split; [done|]. split; [done|].
  intros path key [H|H]%elem_of_app; [done|exfalso].
  rewrite Forall_forall in Hall. by apply Hall in H.
Qed.

Lemma sync_bucket_upload_failure_witness :
  get_s3_objects [] "dataset/" = Ok []
  ∧ upload_files_to_s3 net_b_fails
      (protect (catalog_abc_pre ++ ("b.txt", Some "https://remote/b.txt")
                                   :: catalog_abc_post))
      [] "dataset/" w0
    = (Err (HTTPError "https://remote/b.txt"), world_b_failed)
  ∧ sync_bucket net_b_fails
      (catalog_abc_pre ++ ("b.txt", Some "https://remote/b.txt") :: catalog_abc_post)
      [] [] "dataset/" w0
    = (Err (HTTPError "https://remote/b.txt"), world_b_failed)
  ∧ delete_batches (trace world_b_failed) = delete_batches (trace w0)
  ∧ put_objects (trace world_b_failed) = put_objects (trace w0)
  ∧ (∀ path key, S3UploadFile path key ∈ trace world_b_failed →
                 S3UploadFile path key ∈ trace w0).
Proof.
  split; [reflexivity|]. split; [vm_compute; reflexivity|].
  apply (sync_bucket_upload_failure net_b_fails
           (catalog_abc_pre ++ ("b.txt", Some "https://remote/b.txt")
                               :: catalog_abc_post)
           [] [] "dataset/" [] w0 world_b_failed
           (HTTPError "https://remote/b.txt"));
    [reflexivity|vm_compute; reflexivity].
Defined.

(** X11: a run of [sync_bucket] that returns has fetched the second
    dataset, written it to [data/dataset2/usa_population.json] and
    uploaded that file under the prefix, whatever the store held: the
    second dataset is refreshed on every run. *)
Theorem sync_bucket_refreshes_dataset2 (net : env) (remote_files : dict)
    (store store_after : listing) (s3_prefix : string) (w w' : world) :
  sync_bucket net remote_files store store_after s3_prefix w = (Ok (), w') →
  HttpGet DATASET2_JSON_FILE DATASET2_URL ∈ trace w'
  ∧ S3UploadFile dataset2_path (s3_prefix +:+ DATASET2_JSON_FILE) ∈ trace w'
  ∧ dataset2_path ∈ local_files w'.
Proof.
  unfold sync_bucket. intros H.
  apply bind_Ok_inv in H as (s3_files & wa & _ & H).
  apply bind_Ok_inv in H as ([] & wb & _ & H).
  apply bind_Ok_inv in H as ([] & wc & _ & H).
  apply bind_Ok_inv in H as ([] & wd & _ & H).
  apply bind_Ok_inv in H as ([] & we & Hget & H).
  apply bind_Ok_inv in H as ([] & wf & Hup & H).
  apply bind_Ok_inv in H as ([] & wg & Hp1 & H).
  apply bind_Ok_inv in H as ([] & wh & Hp2 & H).
  destruct (generate_index_html_run store_after s3_prefix wh) as (evs & Hgen & _).
  rewrite Hgen in H. injection H as <-. cbn [trace local_files].
  revert Hp1 Hp2. run_M. intros [= <-] [= <-]. cbn [trace local_files].
  revert Hup. unfold s3_upload_file. destruct (upload_ok net _); run_M; [|done].
  intros [= <-]. cbn [trace local_files].
  revert Hget. unfold get_dataset2_json. run_M.
  destruct (http_ok net DATASET2_URL); run_M; [|done].
  intros [= <-]. cbn [trace local_files].
  rewrite !elem_of_app, !elem_of_cons. tauto.
Qed.

Lemma sync_bucket_refreshes_dataset2_witness :
  sync_bucket all_ok catalog_ab [] [] "dataset/" w0
  = (Ok (), (sync_bucket all_ok catalog_ab [] [] "dataset/" w0).2)
  ∧ HttpGet DATASET2_JSON_FILE DATASET2_URL
    ∈ trace (sync_bucket all_ok catalog_ab [] [] "dataset/" w0).2
  ∧ S3UploadFile dataset2_path ("dataset/" +:+ DATASET2_JSON_FILE)
    ∈ trace (sync_bucket all_ok catalog_ab [] [] "dataset/" w0).2
  ∧ dataset2_path ∈ local_files (sync_bucket all_ok catalog_ab [] [] "dataset/" w0).2.
Proof.
  split; [vm_compute; reflexivity|].
  apply (sync_bucket_refreshes_dataset2 all_ok catalog_ab [] [] "dataset/" w0).
  vm_compute. reflexivity.
Defined.

(** ** More on the names of the listing *)

(** X18: under a non-empty prefix, the name listed for a key is the rest
    of the key after the prefix exactly when the prefix does not occur
    again in that rest. *)
Theorem key_name_suffix_iff (p rest : string) :
  p ≠ EmptyString →
  key_name p (p +:+ rest) = Ok rest ↔ PyStr.occurs p rest = false.
Proof.
  intros Hp. split.
  - intros H. destruct (PyStr.occurs p rest) eqn:Hocc; [|done].
    by apply key_name_cut in Hocc.
  - by apply key_name_strips.
Qed.

Lemma key_name_suffix_iff_witness :
  "dataset/" ≠ EmptyString
  ∧ (key_name "dataset/" ("dataset/" +:+ "a.txt") = Ok "a.txt"
     ↔ PyStr.occurs "dataset/" "a.txt" = false).
Proof.
  split; [discriminate|].
  apply (key_name_suffix_iff "dataset/" "a.txt"). discriminate.
Defined.

Lemma get_s3_objects_strips_witness :
  "dataset/" ≠ EmptyString
  ∧ non_marker_keys store_3x2
    = (λ r, "dataset/" +:+ r) <$> ["a.txt"; "b.txt"; "c.txt"; "d.txt"; "e.txt"; "f.txt"]
  ∧ Forall (λ r, PyStr.occurs "dataset/" r = false)
      ["a.txt"; "b.txt"; "c.txt"; "d.txt"; "e.txt"; "f.txt"]
  ∧ get_s3_objects store_3x2 "dataset/"
    = Ok ["a.txt"; "b.txt"; "c.txt"; "d.txt"; "e.txt"; "f.txt"].
Proof.
  assert (Hocc : Forall (λ r, PyStr.occurs "dataset/" r = false)
                   ["a.txt"; "b.txt"; "c.txt"; "d.txt"; "e.txt"; "f.txt"]).
  { repeat constructor. }
  split; [discriminate|]. split; [reflexivity|]. split; [exact Hocc|].
  apply (get_s3_objects_strips store_3x2 "dataset/"
           ["a.txt"; "b.txt"; "c.txt"; "d.txt"; "e.txt"; "f.txt"]);
    [discriminate|reflexivity|exact Hocc].
Defined.

Lemma sync_bucket_spares_witness :
  "index.html" ∈ dict_keys (protect catalog_ab)
  ∧ adds (spares ("dataset/" +:+ "index.html"))
      (sync_bucket all_ok catalog_ab
         [Page (Some ["dataset/index.html"; "dataset/old.txt"])] [] "dataset/").
Proof.
  assert (Hin : "index.html" ∈ dict_keys (protect catalog_ab)).
  { eapply dict_get_keys, protect_index. }
  split; [exact Hin|].
  exact (sync_bucket_spares all_ok catalog_ab
           [Page (Some ["dataset/index.html"; "dataset/old.txt"])] []
           "dataset/" "index.html" Hin).
Defined.

(** X19: entries without a URL are invisible to the upload loop: the run
    is the same, result and effects, as on the catalog without them. *)
Theorem upload_ignores_entries_without_url (net : env) (R : dict)
    (S : list string) (p : string) (w : world) :
  upload_files_to_s3 net R S p w
  = upload_files_to_s3 net (filter (λ it, is_Some it.2) R) S p w.
Proof.
  unfold upload_files_to_s3, dict. revert w.
  induction R as [|[filename [url|]] R IH]; intros w; [done| |].
  - rewrite filter_cons_True by (cbn; eauto). rewrite !for_each_cons.
    destruct (upload_item net S p (filename, Some url) w) as [[[]|e] w1];
      [apply IH|done].
  - rewrite filter_cons_False by (cbn; by intros [? ?]). rewrite for_each_cons.
    apply IH.
Qed.

(** ** The bytes of a transfer *)

Ltac run_MB :=
  unfold upload_item_bytes, b_requests_get, b_raise_for_status,
    b_upload_fileobj, b_write_chunks, b_store_file, read_to_end,
    b_path_exists, b_print, b_perform, b_raise, mbind, MB_bind, mret, MB_ret;
  cbn beta iota delta
    [bresp_ok bresp_url bresp_raw io_trace disk streams snd fst].

Ltac same_world_done :=
  split; [reflexivity|];
  split; cbn [trace local_files io_trace disk];
  rewrite ?fmap_app; cbn [fmap list_fmap erase fst];
  congruence.

(** The byte-level reading and the first one agree on everything the
    first one shows: the same result, the same events and the same local
    paths, turn by turn. *)
Lemma upload_item_bytes_erase (net : env) (content : string → string)
    (S : list string) (p : string) (item : string * option string)
    (w : world) (bw : bworld) :
  same_world w bw →
  (upload_item net S p item w).1 = (upload_item_bytes net content S p item bw).1
  ∧ same_world (upload_item net S p item w).2
               (upload_item_bytes net content S p item bw).2.
Proof.
  intros [Ht Hl]. destruct item as [filename [url|]]; run_M; run_MB.
  2: { by repeat split. }
  destruct (bool_decide (filename ∉ S)); run_M; run_MB.
  - destruct (http_ok net url); run_M; run_MB; [|same_world_done].
    destruct (upload_ok net (p +:+ filename)); run_M; run_MB; [|same_world_done].
    rewrite Hl.
    destruct (bool_decide (filename ∈ files_to_download)
              && negb (bool_decide (os_path_join download_dir filename ∈ (disk bw).*1)));
      run_M; run_MB; same_world_done.
  - rewrite Hl.
    destruct (bool_decide (filename ∈ files_to_download)
              && negb (bool_decide (os_path_join download_dir filename ∈ (disk bw).*1)));
      run_M; run_MB; [|same_world_done].
    destruct (http_ok net url); run_M; run_MB; same_world_done.
Qed.

Lemma b_for_each_cons {A} (body : A → MB unit) (x : A) (l : list A) (w : bworld) :
  b_for_each body (x :: l) w
  = match body x w with
    | (Ok _, w1) => b_for_each body l w1
    | (Err e, w1) => (Err e, w1)
    end.
Proof. reflexivity. Qed.

Lemma upload_files_bytes_erase (net : env) (content : string → string)
    (R : dict) (S : list string) (p : string) (w : world) (bw : bworld) :
  same_world w bw →
  (upload_files_to_s3 net R S p w).1 = (upload_files_bytes net content R S p bw).1
  ∧ same_world (upload_files_to_s3 net R S p w).2
               (upload_files_bytes net content R S p bw).2.
Proof.
  unfold upload_files_to_s3, upload_files_bytes. revert w bw.
  induction R as [|item R IH]; intros w bw Hw; [by split|].
  rewrite for_each_cons, b_for_each_cons.
  destruct (upload_item_bytes_erase net content S p item w bw Hw) as [Hr Hw1].
  destruct (upload_item net S p item w) as [[[]|e] w1],
           (upload_item_bytes net content S p item bw) as [[[]|e'] bw1];
    cbn [fst snd] in Hr, Hw1; try done.
  by apply IH.
Qed.


(** A file that is in the store and is to be kept locally: the fetch made
    for the copy is read by nothing else, and the copy holds the body. *)
Lemma dedicated_fetch_writes_body (net : env) (content : string → string)
    (url p : string) :
  http_ok net url = true →
  upload_files_bytes net content [("pr.data.0.Current", Some url)]
    ["pr.data.0.Current"] p bw0
  = (Ok (),
     BWorld
       [ IoPrint "Skipping pr.data.0.Current, already in S3.";
         IoPrint "Downloading pr.data.0.Current to local directory...";
         IoGet "pr.data.0.Current" url;
         IoWrite local_copy (content url) ]
       [(local_copy, content url)] [EmptyString]).
Proof.
  intros Hh. unfold upload_files_bytes. rewrite b_for_each_cons. run_MB.
  rewrite bool_decide_false.
  2: { intros H. apply H. apply list_elem_of_singleton. reflexivity. }
  run_MB. rewrite Hh. reflexivity.
Qed.

(** C9: a file that is not in the store and is to be kept locally is
    fetched once, and the one response serves both the upload and the
    copy; the upload reads the stream of the response to its end, so the
    object in the store holds the body and the local copy, written from
    what is left of the stream, is empty. *)
Theorem shared_fetch_leaves_copy_empty (net : env) (content : string → string)
    (url p : string) :
  http_ok net url = true →
  upload_ok net (p +:+ "pr.data.0.Current") = true →
  upload_files_bytes net content [("pr.data.0.Current", Some url)] [] p bw0
  = (Ok (),
     BWorld
       [ IoGet "pr.data.0.Current" url;
         IoPrint "Uploading pr.data.0.Current to S3...";
         IoUpload (p +:+ "pr.data.0.Current") (content url);
         IoPrint "Downloading pr.data.0.Current to local directory...";
         IoWrite local_copy EmptyString ]
       [(local_copy, EmptyString)] [EmptyString]).
Proof.
  intros Hh Hu. unfold upload_files_bytes. rewrite b_for_each_cons. run_MB.
  rewrite bool_decide_true by apply not_elem_of_nil.
  run_MB. rewrite Hh. run_MB. rewrite Hu. reflexivity.
Qed.

Lemma shared_fetch_leaves_copy_empty_witness :
  http_ok all_ok "https://remote/pr.data.0.Current" = true
  ∧ upload_ok all_ok ("dataset/" +:+ "pr.data.0.Current") = true
  ∧ upload_files_bytes all_ok sample_body
      [("pr.data.0.Current", Some "https://remote/pr.data.0.Current")]
      [] "dataset/" bw0
    = (Ok (),
       BWorld
         [ IoGet "pr.data.0.Current" "https://remote/pr.data.0.Current";
           IoPrint "Uploading pr.data.0.Current to S3...";
           IoUpload ("dataset/" +:+ "pr.data.0.Current")
             (sample_body "https://remote/pr.data.0.Current");
           IoPrint "Downloading pr.data.0.Current to local directory...";
           IoWrite local_copy EmptyString ]
         [(local_copy, EmptyString)] [EmptyString]).
Proof.
  split; [reflexivity|]. split; [reflexivity|].
  apply (shared_fetch_leaves_copy_empty all_ok sample_body
           "https://remote/pr.data.0.Current" "dataset/"); reflexivity.
Defined.

(** C6: with the prefix that [get_s3_objects] has by default, the empty
    string, the listing of three pages of two objects gives no name at
    all: the call raises [ValueError]; and under a prefix that two keys
    repeat, the two objects are listed under one name. *)
Theorem get_s3_objects_loses_keys :
  get_s3_objects store_3x2 EmptyString = Err (ValueError "empty separator")
  ∧ non_marker_keys store_3x2
    = [ "dataset/a.txt"; "dataset/b.txt"; "dataset/c.txt";
        "dataset/d.txt"; "dataset/e.txt"; "dataset/f.txt" ]
  ∧ get_s3_objects
      [ Page (Some ["dataset/a/dataset/x.txt"]);
        Page (Some ["dataset/a/dataset/y.txt"]) ] "dataset/"
    = Ok ["a/"; "a/"].
Proof. repeat split; vm_compute; reflexivity. Qed.
